(** * MSQLite3: a shallow embedding of the SQLite wrapper

    The development follows MSQLite3.h and MSQLite3.cpp.  The SQLite
    engine itself is not part of the repository: it appears here as an
    interface ([Engine]) whose answers are arbitrary, together with a log of
    the calls the wrapper makes.  C++ exceptions and the places where the code
    steps outside defined behaviour are explicit results ([outcome]). *)

From Stdlib Require Import ZArith Ascii String Lia.
From stdpp Require Import gmap strings list pretty.

(** ** C and C++ data *)

(** A [const char*]: [None] is the null pointer. *)
Definition cstr : Type := option string.

(** An engine handle ([sqlite3*], [sqlite3_stmt*]): [None] is [nullptr]. *)
Definition ptr : Type := option nat.

(** A [double], kept as its IEEE-754 binary64 bit pattern: the wrapper only
    passes such values on. *)
Definition double : Type := Z.

(** Result codes of sqlite3.h. *)
Definition SQLITE_OK : Z := 0.
Definition SQLITE_ROW : Z := 100.
Definition SQLITE_DONE : Z := 101.

Definition INT_MAX : Z := 2147483647.
Definition INT_MIN : Z := -2147483648.

(** Conversion of an integer value to [int] (32 bits, two's complement). *)
Definition to_int (z : Z) : Z := ((z + 2 ^ 31) mod 2 ^ 32 - 2 ^ 31)%Z.

(** Conversion of an integer value to [size_t] (64 bits, unsigned). *)
Definition to_size_t (z : Z) : Z := (z mod 2 ^ 64)%Z.

Definition LF : ascii := ascii_of_nat 10.
Definition TAB : ascii := ascii_of_nat 9.

(** ** Exceptions

    [SQLite3Error] derives from [std::runtime_error]; [ColumnNotFound]
    derives from [SQLite3Error] and builds its message from the column. *)
Inductive exn : Type :=
| SQLite3Error (what_arg : string)
| ColumnNotFound (colName : string).

Definition what (e : exn) : string :=
  match e with
  | SQLite3Error m => m
  | ColumnNotFound colName =>
      "There is no column by name: '" +:+ colName +:+ "' in current resultset"
  end.

(** The type named by a [catch] clause, and whether the clause catches. *)
Inductive handler : Type := catch_SQLite3Error | catch_ColumnNotFound.

Definition catches (h : handler) (e : exn) : bool :=
  match h, e with
  | catch_SQLite3Error, _ => true
  | catch_ColumnNotFound, ColumnNotFound _ => true
  | catch_ColumnNotFound, SQLite3Error _ => false
  end.

(** What a call does: it returns, it throws, it leaves defined behaviour
    (a [std::string] built from a null pointer, an end iterator
    dereferenced), or the model's loop budget is spent. *)
Inductive outcome (A : Type) : Type :=
| Returns (a : A)
| Throws (e : exn)
| Undefined
| OutOfFuel.
Arguments Returns {A} a.
Arguments Throws {A} e.
Arguments Undefined {A}.
Arguments OutOfFuel {A}.

Definition returns_normally {A} (o : outcome A) : Prop := ∃ a, o = Returns a.

(** [throw SQLite3Error(p)] with [p] a [const char*]: the message is built
    from [p], which must not be null. *)
Definition throw_SQLite3Error {A} (p : cstr) : outcome A :=
  match p with
  | Some m => Throws (SQLite3Error m)
  | None => Undefined
  end.

(** [std::unordered_map::insert]: an existing key keeps its value. *)
Definition umap_insert (k v : string) (m : gmap string string) : gmap string string :=
  match m !! k with
  | Some _ => m
  | None => <[k:=v]> m
  end.

(** ** Text streams

    The parts of [<sstream>] and [<iomanip>] that [ResultSet::get] uses, on
    the text a stream is built over. *)

(** [std::isspace] in the C locale. *)
Definition isspace (c : ascii) : bool :=
  let n := nat_of_ascii c in
  (n =? 32)%nat || ((9 <=? n)%nat && (n <=? 13)%nat).

Definition digit_of (c : ascii) : option Z :=
  let n := nat_of_ascii c in
  if ((48 <=? n)%nat && (n <=? 57)%nat)%bool then Some (Z.of_nat n - 48)%Z else None.

Fixpoint skipws (s : string) : string :=
  match s with
  | String c s' => if isspace c then skipws s' else s
  | EmptyString => s
  end.

(** The digits at the front of [s], as a number; [None] when there is none. *)
Fixpoint read_digits (s : string) (acc : option Z) : option Z :=
  match s with
  | String c s' =>
      match digit_of c with
      | Some d => read_digits s' (Some (default 0 acc * 10 + d)%Z)
      | None => acc
      end
  | EmptyString => acc
  end.

Definition clamp_int (z : Z) : Z := Z.max INT_MIN (Z.min INT_MAX z).

(** An optional sign at the front of [s]: whether it is a minus, and what
    follows it. *)
Definition read_sign (s : string) : bool * string :=
  match s with
  | String "-" s' => (true, s')
  | String "+" s' => (false, s')
  | _ => (false, s)
  end.

(** [T rval{0}; ss >> rval;] for [T = int]: leading white space is skipped,
    an optional sign and the decimal digits are read, a value out of range is
    stored as the nearest bound, and a field without a digit stores 0. *)
Definition extract_int (text : string) : Z :=
  let '(negative, s) := read_sign (skipws text) in
  match read_digits s None with
  | Some v => clamp_int (if negative : bool then - v else v)
  | None => 0%Z
  end.

(** Types the primary template of [get] is instantiated at. *)
Class StreamExtract (T : Type) : Type := stream_extract : string → T.

Definition int : Type := Z.
#[global] Instance int_extract : StreamExtract int := extract_int.

(** [std::getline(ss, rval)]: the characters before the first line feed. *)
Fixpoint getline (s : string) : string :=
  match s with
  | String c s' => if (c =? LF)%char then EmptyString else String c (getline s')
  | EmptyString => EmptyString
  end.

(** The members of [std::tm] that the pattern of [get] writes.  The other
    members are left to the implementation of the library. *)
Record tm : Type := mk_tm {
  tm_sec : Z;
  tm_min : Z;
  tm_hour : Z;
  tm_mday : Z;
  tm_mon : Z;
  tm_year : Z
}.

(** [std::tm rval{}] *)
Definition tm_zero : tm := mk_tm 0 0 0 0 0 0.

(** At most [len] digits at the front of [s], at least one. *)
Fixpoint read_num (len : nat) (s : string) (acc : option Z) : option (Z * string) :=
  match len, s with
  | S len', String c s' =>
      match digit_of c with
      | Some d => read_num len' s' (Some (default 0 acc * 10 + d)%Z)
      | None => (λ v, (v, s)) <$> acc
      end
  | _, _ => (λ v, (v, s)) <$> acc
  end.

Definition read_field (lo hi : Z) (len : nat) (s : string) : option (Z * string) :=
  match read_num len s None with
  | Some (v, rest) => if ((lo <=? v) && (v <=? hi))%Z then Some (v, rest) else None
  | None => None
  end.

(** One conversion specification of [std::get_time]. *)
Definition conversion (spec : ascii) (input : string) (t : tm) : option (tm * string) :=
  if (spec =? "Y")%char then
    '(v, rest) ← read_field 0 9999 4 input;
    Some (mk_tm (tm_sec t) (tm_min t) (tm_hour t) (tm_mday t) (tm_mon t) (v - 1900), rest)
  else if (spec =? "m")%char then
    '(v, rest) ← read_field 1 12 2 input;
    Some (mk_tm (tm_sec t) (tm_min t) (tm_hour t) (tm_mday t) (v - 1) (tm_year t), rest)
  else if (spec =? "d")%char then
    '(v, rest) ← read_field 1 31 2 input;
    Some (mk_tm (tm_sec t) (tm_min t) (tm_hour t) v (tm_mon t) (tm_year t), rest)
  else if (spec =? "H")%char then
    '(v, rest) ← read_field 0 23 2 input;
    Some (mk_tm (tm_sec t) (tm_min t) v (tm_mday t) (tm_mon t) (tm_year t), rest)
  else if (spec =? "M")%char then
    '(v, rest) ← read_field 0 59 2 input;
    Some (mk_tm (tm_sec t) v (tm_hour t) (tm_mday t) (tm_mon t) (tm_year t), rest)
  else if (spec =? "S")%char then
    '(v, rest) ← read_field 0 60 2 input;
    Some (mk_tm v (tm_min t) (tm_hour t) (tm_mday t) (tm_mon t) (tm_year t), rest)
  else None.

(** [ss >> std::get_time(&t, fmt)]: a conversion reads its field, white space
    in the pattern matches any run of white space, another character matches
    itself.  At the first mismatch the stream fails and [t] keeps what was
    stored so far. *)
Fixpoint get_time (fmt : string) (input : string) (t : tm) : tm :=
  match fmt with
  | EmptyString => t
  | String f fmt1 =>
      if (f =? "%")%char then
        match fmt1 with
        | EmptyString => t
        | String spec fmt2 =>
            match conversion spec input t with
            | Some (t', rest) => get_time fmt2 rest t'
            | None => t
            end
        end
      else if isspace f then get_time fmt1 (skipws input) t
      else
        match input with
        | String c rest => if (c =? f)%char then get_time fmt1 rest t else t
        | EmptyString => t
        end
  end.

(** ** ResultSet *)
Module ResultSet.

(** [iterator] is the distance from [container.begin()]; the position
    [length container] is [container.end()]. *)
Record t : Type := mk {
  container : list (gmap string string);
  iterator : nat
}.

(** [ResultSet::ResultSet()] *)
Definition new : t := mk [] 0.

Definition end_ (rs : t) : nat := length (container rs).

(** [addRecord(Container::value_type&&)] *)
Definition addRecord_move (record : gmap string string) (rs : t) : t :=
  mk (container rs ++ [record]) 0.

(** The loop of the array overload of [addRecord], from index [i] on, [n]
    rounds: a null value is stored as the empty string. *)
Fixpoint fill (n : nat) (i : nat) (row : nat → cstr) (cols : nat → string)
    (icontain : gmap string string) : gmap string string :=
  match n with
  | O => icontain
  | S n' =>
      fill n' (S i) row cols
        (umap_insert (cols i) (default "" (row i)) icontain)
  end.

(** [addRecord(int count, row, cols)], the arrays read by index.  A [count]
    below zero runs no round and still appends. *)
Definition addRecord (count : Z) (row : nat → cstr) (cols : nat → string)
    (rs : t) : t :=
  if (count =? 0)%Z then rs
  else addRecord_move (fill (Z.to_nat count) 0 row cols ∅) rs.

(** [operator bool()] *)
Definition to_bool (rs : t) : bool :=
  bool_decide (0 < length (container rs)) && bool_decide (iterator rs ≠ end_ rs).

(** [next()]: the new object and the returned flag. *)
Definition next (rs : t) : t * bool :=
  let it := if bool_decide (iterator rs ≠ end_ rs) then S (iterator rs)
            else iterator rs in
  (mk (container rs) it, bool_decide (it ≠ end_ rs)).

(** [count()] *)
Definition count (rs : t) : nat := length (container rs).

(** [*iterator]: the row under the cursor, if the cursor is on one. *)
Definition current (rs : t) : option (gmap string string) :=
  container rs !! iterator rs.


(** The primary template [T get(const std::string& name)]. *)
Definition get {T} `{StreamExtract T} (rs : t) (name : string) : outcome T :=
  match current rs with
  | None => Undefined
  | Some row =>
      match row !! name with
      | Some text => Returns (stream_extract text)
      | None => Throws (ColumnNotFound name)
      end
  end.

(** The specialization for [std::string]. *)
Definition get_string (rs : t) (name : string) : outcome string :=
  match current rs with
  | None => Undefined
  | Some row =>
      match row !! name with
      | Some text => Returns (getline text)
      | None => Throws (ColumnNotFound name)
      end
  end.

(** The specialization for [std::tm]. *)
Definition get_tm (rs : t) (name : string) : outcome tm :=
  match current rs with
  | None => Undefined
  | Some row =>
      match row !! name with
      | Some text => Returns (get_time "%Y-%m-%d %H:%M:%S" text tm_zero)
      | None => Throws (ColumnNotFound name)
      end
  end.

End ResultSet.


(** ** The engine

    What sqlite3.h offers and the wrapper calls.  An engine is any type of
    states with an answer to every call; the answers are not constrained. *)

(** The value handed to one of the [sqlite3_bind_*] functions. *)
Inductive binding : Type :=
| bind_double (v : double)
| bind_int (v : Z)
| bind_int64 (v : Z)
| bind_text (text : string) (nByte : Z)
| bind_null.

Class Engine (E : Type) : Type := {
  (** status and the handle stored through the out-parameter *)
  engine_open : E → cstr → E * Z * ptr;
  (** status and the new value of the error-message out-parameter, given its
      current value; the wrapper's row callbacks return 0 *)
  engine_exec : E → ptr → string → cstr → E * Z * cstr;
  engine_prepare : E → ptr → string → Z → E * Z * ptr;
  engine_errmsg : E → ptr → string;
  engine_bind : E → ptr → Z → binding → E * Z;
  engine_clear_bindings : E → ptr → E * Z;
  engine_reset : E → ptr → E * Z;
  engine_step : E → ptr → E * Z;
  engine_column_count : E → ptr → Z;
  (** the column functions read the current row; a name is not null *)
  engine_column_name : E → ptr → Z → string;
  (** null for an SQL NULL *)
  engine_column_text : E → ptr → Z → cstr;
  engine_finalize : E → ptr → E * Z
}.

(** The calls that reach the engine and may change it, in order. *)
Inductive call : Type :=
| call_open (filename : cstr)
| call_exec (db : ptr) (sql : string)
| call_prepare (db : ptr) (sql : string) (nByte : Z)
| call_bind (stmt : ptr) (index : Z) (b : binding)
| call_clear_bindings (stmt : ptr)
| call_reset (stmt : ptr)
| call_step (stmt : ptr)
| call_finalize (stmt : ptr).

Record World (E : Type) : Type := mk_world {
  engine : E;
  calls : list call
}.
Arguments mk_world {E} engine calls.
Arguments engine {E} w.
Arguments calls {E} w.

Section Api.
Context {E : Type} `{Engine E}.

Definition sqlite3_open (filename : cstr) (w : World E) : World E * Z * ptr :=
  let '(e, r, db) := engine_open (engine w) filename in
  (mk_world e (calls w ++ [call_open filename]), r, db).

Definition sqlite3_exec (db : ptr) (sql : string) (errmsg : cstr) (w : World E)
    : World E * Z * cstr :=
  let '(e, r, msg) := engine_exec (engine w) db sql errmsg in
  (mk_world e (calls w ++ [call_exec db sql]), r, msg).

Definition sqlite3_prepare_v3 (db : ptr) (sql : string) (nByte : Z) (w : World E)
    : World E * Z * ptr :=
  let '(e, r, stmt) := engine_prepare (engine w) db sql nByte in
  (mk_world e (calls w ++ [call_prepare db sql nByte]), r, stmt).

Definition sqlite3_errmsg (db : ptr) (w : World E) : string :=
  engine_errmsg (engine w) db.

Definition sqlite3_bind (stmt : ptr) (index : Z) (b : binding) (w : World E)
    : World E * Z :=
  let '(e, r) := engine_bind (engine w) stmt index b in
  (mk_world e (calls w ++ [call_bind stmt index b]), r).

Definition sqlite3_clear_bindings (stmt : ptr) (w : World E) : World E * Z :=
  let '(e, r) := engine_clear_bindings (engine w) stmt in
  (mk_world e (calls w ++ [call_clear_bindings stmt]), r).

Definition sqlite3_reset (stmt : ptr) (w : World E) : World E * Z :=
  let '(e, r) := engine_reset (engine w) stmt in
  (mk_world e (calls w ++ [call_reset stmt]), r).

Definition sqlite3_step (stmt : ptr) (w : World E) : World E * Z :=
  let '(e, r) := engine_step (engine w) stmt in
  (mk_world e (calls w ++ [call_step stmt]), r).

Definition sqlite3_finalize (stmt : ptr) (w : World E) : World E * Z :=
  let '(e, r) := engine_finalize (engine w) stmt in
  (mk_world e (calls w ++ [call_finalize stmt]), r).

Definition sqlite3_column_count (stmt : ptr) (w : World E) : Z :=
  engine_column_count (engine w) stmt.

Definition sqlite3_column_name (stmt : ptr) (i : Z) (w : World E) : string :=
  engine_column_name (engine w) stmt i.

Definition sqlite3_column_text (stmt : ptr) (i : Z) (w : World E) : cstr :=
  engine_column_text (engine w) stmt i.

End Api.

(** [std::count(query.begin(), query.end(), c)] *)
Fixpoint count_char (c : ascii) (s : string) : nat :=
  match s with
  | String x s' => (if (x =? c)%char then 1 else 0) + count_char c s'
  | EmptyString => 0
  end.

(** ** PreparedStatement *)
Module PreparedStatement.

Record t : Type := mk {
  db : ptr;
  stmt : ptr;
  rc : Z;
  paramCount : Z
}.

(** One argument of [bind], by the overload of [prepareParam] that the
    argument selects. *)
Inductive param : Type :=
| floating (v : double)
| integral (v : Z)
| int64 (v : Z)
| char_pointer (p : cstr)
| std_string (s : string)
| character (c : ascii)
| boolean (b : bool).

Definition with_rc (this : t) (r : Z) : t :=
  mk (db this) (stmt this) r (paramCount this).

Definition COUNT_MISMATCH : string :=
  "Count of arguments does not equal count of questionmarks".

Section WithEngine.
Context {E : Type} `{Engine E}.

(** The call each overload of [prepareParam] makes.  An integral value
    is passed as an [int], a [bool] through its cast to [int], a [char]
    as one byte of text; the length of a [std::string] goes through the
    [int] parameter of [sqlite3_bind_text]. *)
Definition binding_of (p : param) : binding :=
  match p with
  | floating v => bind_double v
  | integral v => bind_int (to_int v)
  | int64 v => bind_int64 v
  | char_pointer (Some text) => bind_text text (-1)
  | char_pointer None => bind_null
  | std_string s => bind_text s (to_int (Z.of_nat (String.length s)))
  | character c => bind_text (String c EmptyString) 1
  | boolean b => bind_int (to_int (if b then 1 else 0))
  end.

(** [prepareParam(param, index)]: [rc] takes the status of the call. *)
Definition prepareParam (p : param) (index : Z) (this : t) (w : World E)
    : t * World E :=
  let '(w', r) := sqlite3_bind (stmt this) index (binding_of p) w in
  (with_rc this r, w').

(** The pack expansion of [bind]: the arguments in order, [++index]
    before each. *)
Fixpoint expand (args : list param) (index : Z) (this : t) (w : World E)
    : t * World E :=
  match args with
  | [] => (this, w)
  | a :: rest =>
      let index := (index + 1)%Z in
      let '(this', w') := prepareParam a index this w in
      expand rest index this' w'
  end.

(** [bind(args...)] *)
Definition bind (args : list param) (this : t) (w : World E)
    : outcome unit * t * World E :=
  if bool_decide (Z.of_nat (length args) ≠ to_size_t (paramCount this)) then
    (Throws (SQLite3Error COUNT_MISMATCH), this, w)
  else
    let '(this', w') := expand args 0 this w in
    if bool_decide (rc this' ≠ SQLITE_OK) then
      (Throws (SQLite3Error (sqlite3_errmsg (db this') w')), this', w')
    else (Returns tt, this', w').

(** The constructor [PreparedStatement(db, query, args...)]. *)
Definition new (db0 : ptr) (query : string) (args : list param) (w : World E)
    : outcome t * World E :=
  let n := to_int (Z.of_nat (count_char "?" query)) in
  let '(w1, r, st) :=
    sqlite3_prepare_v3 db0 query (to_int (Z.of_nat (String.length query))) w in
  let this := mk db0 st r n in
  if bool_decide (r ≠ SQLITE_OK) then
    (Throws (SQLite3Error (sqlite3_errmsg db0 w1)), w1)
  else if bool_decide (0 < length args) then
    match bind args this w1 with
    | (Returns _, this', w2) => (Returns this', w2)
    | (Throws e, _, w2) => (Throws e, w2)
    | (Undefined, _, w2) => (Undefined, w2)
    | (OutOfFuel, _, w2) => (OutOfFuel, w2)
    end
  else (Returns this, w1).

(** [reset()] *)
Definition reset (this : t) (w : World E) : t * World E :=
  let '(w1, r1) := sqlite3_clear_bindings (stmt this) w in
  let '(w2, r2) := sqlite3_reset (stmt this) w1 in
  (with_rc this r2, w2).

(** The [do ... while (rc == SQLITE_ROW)] loop of [execute], with a
    budget of steps. *)
Fixpoint execute_loop (fuel : nat) (this : t) (w : World E)
    : option (t * World E) :=
  match fuel with
  | O => None
  | S fuel' =>
      let '(w', r) := sqlite3_step (stmt this) w in
      if (r =? SQLITE_ROW)%Z then execute_loop fuel' (with_rc this r) w'
      else Some (with_rc this r, w')
  end.

(** [execute()] *)
Definition execute (fuel : nat) (this : t) (w : World E)
    : outcome unit * t * World E :=
  match execute_loop fuel this w with
  | None => (OutOfFuel, this, w)
  | Some (this', w') =>
      if bool_decide (rc this' ≠ SQLITE_DONE) then
        (Throws (SQLite3Error (sqlite3_errmsg (db this') w')), this', w')
      else (Returns tt, this', w')
  end.

(** The column loop of [executeQuery]: [n] columns from [colIndex] on.
    The text of a column goes into a [std::string], so it must not be
    null: [None] is that case. *)
Fixpoint read_columns (n : nat) (colIndex : Z) (st : ptr) (w : World E)
    (record : gmap string string) : option (gmap string string) :=
  match n with
  | O => Some record
  | S n' =>
      match sqlite3_column_text st colIndex w with
      | Some text =>
          read_columns n' (colIndex + 1)%Z st w
            (umap_insert (sqlite3_column_name st colIndex w) text record)
      | None => None
      end
  end.

(** The [while (sqlite3_step(stmt) == SQLITE_ROW)] loop of
    [executeQuery], with a budget of steps. *)
Fixpoint executeQuery_loop (fuel : nat) (this : t) (rs : ResultSet.t)
    (w : World E) : outcome ResultSet.t * World E :=
  match fuel with
  | O => (OutOfFuel, w)
  | S fuel' =>
      let '(w', r) := sqlite3_step (stmt this) w in
      if (r =? SQLITE_ROW)%Z then
        match read_columns (Z.to_nat (sqlite3_column_count (stmt this) w')) 0
                (stmt this) w' ∅ with
        | Some record =>
            executeQuery_loop fuel' this (ResultSet.addRecord_move record rs) w'
        | None => (Undefined, w')
        end
      else (Returns rs, w')
  end.

(** [executeQuery()] *)
Definition executeQuery (fuel : nat) (this : t) (w : World E)
    : outcome ResultSet.t * World E :=
  executeQuery_loop fuel this ResultSet.new w.

(** Objects at their addresses: a move has two objects in hand, and
    they may be the same one. *)
Definition memory : Type := nat → t.

Definition store (m : memory) (a : nat) (v : t) : memory :=
  λ x, if bool_decide (x = a) then v else m x.

(** [operator=(PreparedStatement&& ps)], with [this] at [self] and [ps]
    at [src], one member at a time. *)
Definition move_assign (self src : nat) (m : memory) (w : World E)
    : memory * World E :=
  let w1 := if stmt (m self) is Some _
            then (sqlite3_finalize (stmt (m self)) w).1 else w in
  let m1 := store m self (mk (db (m src)) (stmt (m self)) (rc (m self)) (paramCount (m self))) in
  let m2 := store m1 self (with_rc (m1 self) (rc (m1 src))) in
  let m3 := store m2 self (mk (db (m2 self)) (stmt (m2 src)) (rc (m2 self)) (paramCount (m2 self))) in
  let m4 := store m3 self (mk (db (m3 self)) (stmt (m3 self)) (rc (m3 self)) (paramCount (m3 src))) in
  let m5 := store m4 src (mk None (stmt (m4 src)) (rc (m4 src)) (paramCount (m4 src))) in
  let m6 := store m5 src (mk (db (m5 src)) None (rc (m5 src)) (paramCount (m5 src))) in
  (m6, w1).

(** [PreparedStatement(PreparedStatement&& ps)]: no member is
    initialised before the assignment, so [m self] is whatever the
    storage of the new object holds. *)
Definition move_new (self src : nat) (m : memory) (w : World E)
    : memory * World E :=
  move_assign self src m w.

(** [~PreparedStatement()] *)
Definition destroy (this : t) (w : World E) : t * World E :=
  if stmt this is Some _ then
    let '(w', r) := sqlite3_finalize (stmt this) w in (with_rc this r, w')
  else (this, w).

End WithEngine.
End PreparedStatement.

(** ** SQLite3, the connection *)
Module SQLite3.

Record t : Type := mk {
  db : ptr;
  errMsg : cstr;
  result : Z;
  isOpened : bool
}.

Definition NO_SQL : string := "No sql parameter".

(** The message of the constructor's error: the text, [std::to_string] of
    the status, a tab, and [errMsg] appended as a [const char*]. *)
Definition init_error {A} (r : Z) (msg : cstr) : outcome A :=
  match msg with
  | Some m =>
      Throws (SQLite3Error
        ("Database can't be initialized: " ++ String LF "Result: "
           ++ pretty r ++ String TAB m))
  | None => Undefined
  end.

Section WithEngine.
Context {E : Type} `{Engine E}.

(** [SQLite3(dbPath, createStmt)] *)
Definition new (dbPath createStmt : cstr) (w : World E) : outcome t * World E :=
  let '(w1, r1, d) := sqlite3_open dbPath w in
  let opened := bool_decide (r1 = SQLITE_OK) in
  let '(w2, r2, msg) :=
    match createStmt with
    | Some sql => sqlite3_exec d sql None w1
    | None => (w1, r1, None)
    end in
  if bool_decide (r2 ≠ SQLITE_OK) then (init_error r2 msg, w2)
  else (Returns (mk d msg r2 opened), w2).

(** [execute(sql)] *)
Definition execute (sql : cstr) (this : t) (w : World E)
    : outcome unit * t * World E :=
  match sql with
  | Some text =>
      let '(w', r, msg) := sqlite3_exec (db this) text (errMsg this) w in
      let this' := mk (db this) msg r (isOpened this) in
      if bool_decide (r ≠ SQLITE_OK) then (throw_SQLite3Error msg, this', w')
      else (Returns tt, this', w')
  | None => (Throws (SQLite3Error NO_SQL), this, w)
  end.

(** [createPreparedStatement(query, args...)] *)
Definition createPreparedStatement (query : string)
    (args : list PreparedStatement.param) (this : t) (w : World E)
    : outcome PreparedStatement.t * World E :=
  PreparedStatement.new (db this) query args w.

End WithEngine.
End SQLite3.

(** ** A scripted engine

    An engine that answers from lists fixed in advance, one answer for each
    call of a kind; a list that is used up answers with success (or with
    SQLITE_DONE for a step).  It serves to run the wrapper on examples. *)
Module Scripted.

Record t : Type := mk {
  open_reply : Z * ptr;
  exec_replies : list (Z * cstr);
  prepare_reply : Z * ptr;
  bind_replies : list Z;
  step_replies : list Z;
  columns : list (string * cstr);
  message : string
}.

Definition quiet : t :=
  mk (SQLITE_OK, Some 1%nat) [] (SQLITE_OK, Some 2%nat) [] [] [] "not an error".

#[global] Instance scripted_engine : Engine t := {
  engine_open e _ := (e, (open_reply e).1, (open_reply e).2);
  engine_exec e _ _ old :=
    match exec_replies e with
    | (r, msg) :: rest =>
        (mk (open_reply e) rest (prepare_reply e) (bind_replies e)
            (step_replies e) (columns e) (message e), r, msg)
    | [] => (e, SQLITE_OK, None)
    end;
  engine_prepare e _ _ _ := (e, (prepare_reply e).1, (prepare_reply e).2);
  engine_errmsg e _ := message e;
  engine_bind e _ _ _ :=
    match bind_replies e with
    | r :: rest =>
        (mk (open_reply e) (exec_replies e) (prepare_reply e) rest
            (step_replies e) (columns e) (message e), r)
    | [] => (e, SQLITE_OK)
    end;
  engine_clear_bindings e _ := (e, SQLITE_OK);
  engine_reset e _ := (e, SQLITE_OK);
  engine_step e _ :=
    match step_replies e with
    | r :: rest =>
        (mk (open_reply e) (exec_replies e) (prepare_reply e) (bind_replies e)
            rest (columns e) (message e), r)
    | [] => (e, SQLITE_DONE)
    end;
  engine_column_count e _ := Z.of_nat (length (columns e));
  engine_column_name e _ i := default EmptyString (fst <$> columns e !! Z.to_nat i);
  engine_column_text e _ i := default None (snd <$> columns e !! Z.to_nat i);
  engine_finalize e _ := (e, SQLITE_OK)
}.

Definition world (e : t) : World t := mk_world e [].

End Scripted.

(** * The vocabulary of the statements, and sample data *)

(** One call of [addRecord], by overload. *)
Inductive addition : Type :=
| add_record (record : gmap string string)
| add_arrays (count : Z) (row : nat → cstr) (cols : nat → string).

Definition apply_addition (rs : ResultSet.t) (a : addition) : ResultSet.t :=
  match a with
  | add_record record => ResultSet.addRecord_move record rs
  | add_arrays count row cols => ResultSet.addRecord count row cols rs
  end.

(** The record handed over has at least one column. *)
Definition non_empty_record (a : addition) : Prop :=
  match a with
  | add_record record => record ≠ ∅
  | add_arrays count _ _ => (0 < count)%Z
  end.

Definition sample_additions : list addition :=
  [ add_record {[ "id" := "1" ]};
    add_arrays 2 (λ i, if i is O then Some "2" else None)
                 (λ i, if i is O then "id" else "name") ].

Definition sample_rows : ResultSet.t :=
  ResultSet.mk [ {[ "id" := "42" ]} ] 0.

Definition digit_char (d : Z) : ascii := ascii_of_nat (48 + Z.to_nat d).

(** The digits [ds] as text, then [rest]. *)
Fixpoint digits_text (ds : list Z) (rest : string) : string :=
  match ds with
  | [] => rest
  | d :: ds' => String (digit_char d) (digits_text ds' rest)
  end.

Definition decimal (ds : list Z) : Z := foldl (λ acc d, acc * 10 + d)%Z 0%Z ds.

Definition is_digit (d : Z) : Prop := (0 ≤ d ≤ 9)%Z.

(** [s] does not go on with a digit. *)
Definition no_digit_ahead (s : string) : Prop :=
  match s with
  | String c _ => digit_of c = None
  | EmptyString => True
  end.

(** [n] on two digits, then [rest]. *)
Definition two_digits (n : Z) (rest : string) : string :=
  String (digit_char (n / 10)) (String (digit_char (n mod 10)) rest).

Definition four_digits (n : Z) (rest : string) : string :=
  String (digit_char (n / 1000))
    (String (digit_char (n / 100 mod 10)) (two_digits (n mod 100) rest)).

(** The text [YYYY-MM-DD HH:MM:SS] of a date and time. *)
Definition datetime_text (Y M D h mi s : Z) : string :=
  four_digits Y (String "-" (two_digits M (String "-" (two_digits D
    (String " " (two_digits h (String ":" (two_digits mi (String ":"
      (two_digits s EmptyString)))))))))).

(** The calendar reading of a [std::tm]. *)
Definition year (t : tm) : Z := (tm_year t + 1900)%Z.
Definition month (t : tm) : Z := (tm_mon t + 1)%Z.

(** The mark in front of a number. *)
Inductive sign_mark : Type := no_mark | plus_mark | minus_mark.

Definition sign_text (sg : sign_mark) (rest : string) : string :=
  match sg with
  | no_mark => rest
  | plus_mark => String "+" rest
  | minus_mark => String "-" rest
  end.

Definition signed_value (sg : sign_mark) (v : Z) : Z :=
  match sg with
  | minus_mark => (- v)%Z
  | _ => v
  end.

(** The characters [bs], then [rest]. *)
Fixpoint chars_text (bs : list ascii) (rest : string) : string :=
  match bs with
  | [] => rest
  | b :: bs' => String b (chars_text bs' rest)
  end.

Definition is_blank (c : ascii) : Prop := isspace c = true.

(** [s] does not go on with blanks and a number: it is empty, or starts
    with a sign that no digit follows, or with a character that is no blank,
    no sign and no digit. *)
Definition no_number_ahead (s : string) : Prop :=
  match s with
  | EmptyString => True
  | String c s' =>
      isspace c = false
      ∧ if ((c =? "+")%char || (c =? "-")%char)%bool then no_digit_ahead s'
        else digit_of c = None
  end.

Definition date_and_more : string := "2024-01-15 10:30:00 and more".
Definition no_date : string := "not a date".

Definition sample_typed_row : gmap string string :=
  {[ "note" := "a b c"; "at" := "2024-01-15 10:30:00"; "n" := "42" ]}.

Definition sample_typed_rows : ResultSet.t := ResultSet.mk [ sample_typed_row ] 0.

Definition two_lines : string := String "a" (String LF "b").

Definition sample_query : string := "INSERT INTO t(a, b) VALUES(?, ?)".

Definition sample_statement : PreparedStatement.t :=
  PreparedStatement.mk (Some 1) (Some 2) SQLITE_OK 2.

(** A statement of a query without placeholders, and its state after
    [execute()]. *)
Definition no_placeholders : PreparedStatement.t :=
  PreparedStatement.mk (Some 1) (Some 2) SQLITE_OK 0.

Definition executed_statement : PreparedStatement.t :=
  PreparedStatement.mk (Some 1) (Some 2) SQLITE_DONE 0.

(** A query of [n] question marks. *)
Fixpoint question_marks (n : nat) : string :=
  match n with
  | O => EmptyString
  | S n' => String "?" (question_marks n')
  end.

(** A query of 2^32 + 1 question marks, and the statement that the
    constructor makes of it. *)
Definition many_question_marks : string := question_marks (Z.to_nat 4294967297).

Definition wrapped_statement : PreparedStatement.t :=
  PreparedStatement.mk (Some 1) (Some 2) SQLITE_OK 1.

(** An engine whose first binding fails (SQLITE_ERROR) and whose second
    succeeds. *)
Definition first_binding_fails : Scripted.t :=
  Scripted.mk (SQLITE_OK, Some 1) [] (SQLITE_OK, Some 2) [1%Z; SQLITE_OK] [] []
    "bind or column index out of range".

Definition sample_connection : SQLite3.t := SQLite3.mk (Some 1) None SQLITE_OK true.

(** An engine that cannot open the file (SQLITE_CANTOPEN, with a handle all
    the same) and answers a later [sqlite3_exec] on that handle with
    SQLITE_MISUSE, the message out-parameter left null. *)
Definition cannot_open : Scripted.t :=
  Scripted.mk (14%Z, Some 1) [(21%Z, None)] (SQLITE_OK, Some 2) [] [] []
    "unable to open database file".

(** The same failure of the open, with an engine that then reports success
    for the script. *)
Definition cannot_open_script_runs : Scripted.t :=
  Scripted.mk (14%Z, Some 1) [(SQLITE_OK, None)] (SQLITE_OK, Some 2) [] [] []
    "unable to open database file".

Definition missing_path : cstr := Some "/missing/app.db".
Definition creation_script : cstr := Some "CREATE TABLE t(a)".

(** A source statement at address 0, and at address 1 storage that was
    never initialised and holds what an earlier use left there. *)
Definition moved_from : PreparedStatement.t :=
  PreparedStatement.mk (Some 1) (Some 2) SQLITE_OK 1.

Definition stale_storage (st : ptr) : PreparedStatement.t :=
  PreparedStatement.mk (Some 9) st 5 3.

Definition sample_memory (st : ptr) : PreparedStatement.memory :=
  λ a, if a is O then moved_from else stale_storage st.

(** An engine with one row to give, of one column that is an SQL NULL. *)
Definition one_null_row : Scripted.t :=
  Scripted.mk (SQLITE_OK, Some 1) [] (SQLITE_OK, Some 2) [] [SQLITE_ROW]
    [("x", None)] "not an error".

(** The same row with a text in the column. *)
Definition one_text_row : Scripted.t :=
  Scripted.mk (SQLITE_OK, Some 1) [] (SQLITE_OK, Some 2) [] [SQLITE_ROW]
    [("x", Some "1")] "not an error".

(** An engine whose first step fails (SQLITE_ERROR). *)
Definition step_fails : Scripted.t :=
  Scripted.mk (SQLITE_OK, Some 1) [] (SQLITE_OK, Some 2) [] [1%Z] []
    "disk I/O error".

(** * The rest of the wrapper

    The members of the classes that the statements above do not reach, and
    the transaction guard. *)

(** ** The engine, continued *)

(** One call of the row callback of [sqlite3_exec]: the number of columns,
    the values and the names. *)
Record invocation : Type := mk_invocation {
  inv_count : Z;
  inv_row : nat → cstr;
  inv_cols : nat → string
}.

(** [sqlite3_exec] with a row callback, and [sqlite3_last_insert_rowid].
    The callbacks of the wrapper return 0, so the engine runs a statement
    the same way whether its rows are kept or dropped. *)
Class EngineRows (E : Type) `{Engine E} : Type := {
  engine_exec_callback : E → ptr → string → cstr → E * Z * cstr * list invocation;
  engine_last_insert_rowid : E → ptr → Z;
  engine_exec_callback_exec :
    ∀ e db sql msg, (engine_exec_callback e db sql msg).1 = engine_exec e db sql msg
}.

Section ApiRows.
Context {E : Type} `{EngineRows E}.

Definition sqlite3_exec_callback (db : ptr) (sql : string) (errmsg : cstr)
    (w : World E) : World E * Z * cstr * list invocation :=
  let '(e, r, msg, invs) := engine_exec_callback (engine w) db sql errmsg in
  (mk_world e (calls w ++ [call_exec db sql]), r, msg, invs).

Definition sqlite3_last_insert_rowid (db : ptr) (w : World E) : Z :=
  engine_last_insert_rowid (engine w) db.

End ApiRows.

(** ** std::put_time *)

(** [ss << std::put_time(&t, fmt)] for the conversions that the wrapper
    uses, with the members of [t] in the range of the calendar: the year in
    decimal, the month and the day of the month on two digits. *)
Fixpoint put_time (t : tm) (fmt : string) : string :=
  match fmt with
  | EmptyString => EmptyString
  | String f fmt1 =>
      if (f =? "%")%char then
        match fmt1 with
        | EmptyString => EmptyString
        | String spec fmt2 =>
            if (spec =? "Y")%char then pretty (tm_year t + 1900)%Z +:+ put_time t fmt2
            else if (spec =? "m")%char then two_digits (tm_mon t + 1) (put_time t fmt2)
            else if (spec =? "d")%char then two_digits (tm_mday t) (put_time t fmt2)
            else put_time t fmt2
        end
      else String f (put_time t fmt1)
  end.

(** Whether every year from 1000 to 9999 prints in decimal as its four
    digits. *)
Definition four_digit_years_print : bool :=
  forallb (λ Y : Z, String.eqb (pretty Y) (four_digits Y EmptyString)) (seqZ 1000 9000).

(** The text [YYYY-MM-DD] of a date, and [YYYY-MM] of a month. *)
Definition date_text (Y M D : Z) : string :=
  four_digits Y (String "-" (two_digits M (String "-" (two_digits D EmptyString)))).

Definition month_text (Y M : Z) : string :=
  four_digits Y (String "-" (two_digits M EmptyString)).

(** ** SQLite3, the other members *)
Module Connection.

Definition BEGIN_TRANSACTION : string := "BEGIN TRANSACTION".
Definition END_TRANSACTION : string := "END TRANSACTION".

(** [isPrepared()] *)
Definition isPrepared (this : SQLite3.t) : bool := SQLite3.isOpened this.

(** [prepare()] *)
Definition prepare (this : SQLite3.t) : Z := 0.

(** [error()] *)
Definition error (this : SQLite3.t) : string := default "NULL" (SQLite3.errMsg this).

(** [toString(date)] *)
Definition toString (date : tm) : string := put_time date "%Y-%m-%d".

(** [toStringM(date)] *)
Definition toStringM (date : tm) : string := put_time date "%Y-%m".

Section WithEngine.
Context {E : Type} `{EngineRows E}.

(** [lastId()] *)
Definition lastId (this : SQLite3.t) (w : World E) : Z :=
  if isPrepared this then sqlite3_last_insert_rowid (SQLite3.db this) w else (-1)%Z.

(** The rows that the callback of [executeQuery] adds to [retval], one call
    of [addRecord] for each call of the callback. *)
Definition collect (invs : list invocation) (retval : ResultSet.t) : ResultSet.t :=
  foldl (λ rs i, ResultSet.addRecord (inv_count i) (inv_row i) (inv_cols i) rs)
    retval invs.

(** [executeQuery(sql)] *)
Definition executeQuery (sql : cstr) (this : SQLite3.t) (w : World E)
    : outcome ResultSet.t * SQLite3.t * World E :=
  match sql with
  | Some text =>
      let '(w', r, msg, invs) :=
        sqlite3_exec_callback (SQLite3.db this) text (SQLite3.errMsg this) w in
      let retval := collect invs ResultSet.new in
      let this' := SQLite3.mk (SQLite3.db this) msg r (SQLite3.isOpened this) in
      if bool_decide (r ≠ SQLITE_OK) then (throw_SQLite3Error msg, this', w')
      else (Returns retval, this', w')
  | None => (Throws (SQLite3Error SQLite3.NO_SQL), this, w)
  end.

(** The body shared by [beginTransaction()] and [endTransaction()]: the
    statement is run without a callback. *)
Definition run_literal (text : string) (this : SQLite3.t) (w : World E)
    : outcome unit * SQLite3.t * World E :=
  let '(w', r, msg) := sqlite3_exec (SQLite3.db this) text (SQLite3.errMsg this) w in
  let this' := SQLite3.mk (SQLite3.db this) msg r (SQLite3.isOpened this) in
  if bool_decide (r ≠ SQLITE_OK) then (throw_SQLite3Error msg, this', w')
  else (Returns tt, this', w').

(** [beginTransaction()] *)
Definition beginTransaction (this : SQLite3.t) (w : World E)
    : outcome unit * SQLite3.t * World E :=
  run_literal BEGIN_TRANSACTION this w.

(** [endTransaction()] *)
Definition endTransaction (this : SQLite3.t) (w : World E)
    : outcome unit * SQLite3.t * World E :=
  run_literal END_TRANSACTION this w.

End WithEngine.
End Connection.

(** ** TransactionGuard *)
Module TransactionGuard.
Section WithEngine.
Context {E : Type} `{EngineRows E}.

(** [TransactionGuard(db)]: the connection that [db] points to begins a
    transaction. *)
Definition new (db : SQLite3.t) (w : World E) : outcome unit * SQLite3.t * World E :=
  Connection.beginTransaction db w.

(** [~TransactionGuard()]: [catch(...)] takes whatever [endTransaction]
    throws. *)
Definition destroy (db : SQLite3.t) (w : World E) : outcome unit * SQLite3.t * World E :=
  match Connection.endTransaction db w with
  | (Throws _, db', w') => (Returns tt, db', w')
  | other => other
  end.

(** A block [{ TransactionGuard tg(db); body }]: when the constructor
    throws, nothing else runs; otherwise the destructor runs when [body]
    returns and when it throws, and the block ends as [body] did. *)
Definition scoped {A : Type}
    (body : SQLite3.t → World E → outcome A * SQLite3.t * World E)
    (db : SQLite3.t) (w : World E) : outcome A * SQLite3.t * World E :=
  match new db w with
  | (Returns _, db1, w1) =>
      let '(o, db2, w2) := body db1 w1 in
      match o with
      | Returns _ | Throws _ =>
          match destroy db2 w2 with
          | (Returns _, db3, w3) => (o, db3, w3)
          | (Throws e, db3, w3) => (Throws e, db3, w3)
          | (Undefined, db3, w3) => (Undefined, db3, w3)
          | (OutOfFuel, db3, w3) => (OutOfFuel, db3, w3)
          end
      | Undefined | OutOfFuel => (o, db2, w2)
      end
  | (Throws e, db1, w1) => (Throws e, db1, w1)
  | (Undefined, db1, w1) => (Undefined, db1, w1)
  | (OutOfFuel, db1, w1) => (OutOfFuel, db1, w1)
  end.

End WithEngine.
End TransactionGuard.

(** ** A scripted engine with rows *)
Module ScriptedRows.

Record t : Type := mk {
  base : Scripted.t;
  rows : list invocation;
  rowid : Z
}.

Definition lift {X : Type} (e : t) (r : Scripted.t * X) : t * X :=
  (mk r.1 (rows e) (rowid e), r.2).

#[global] Instance scripted_rows_engine : Engine t := {
  engine_open e f :=
    let r := engine_open (base e) f in (mk r.1.1 (rows e) (rowid e), r.1.2, r.2);
  engine_exec e db sql msg :=
    let r := engine_exec (base e) db sql msg in (mk r.1.1 (rows e) (rowid e), r.1.2, r.2);
  engine_prepare e db sql n :=
    let r := engine_prepare (base e) db sql n in (mk r.1.1 (rows e) (rowid e), r.1.2, r.2);
  engine_errmsg e db := engine_errmsg (base e) db;
  engine_bind e st i b := lift e (engine_bind (base e) st i b);
  engine_clear_bindings e st := lift e (engine_clear_bindings (base e) st);
  engine_reset e st := lift e (engine_reset (base e) st);
  engine_step e st := lift e (engine_step (base e) st);
  engine_column_count e st := engine_column_count (base e) st;
  engine_column_name e st i := engine_column_name (base e) st i;
  engine_column_text e st i := engine_column_text (base e) st i;
  engine_finalize e st := lift e (engine_finalize (base e) st)
}.

Definition exec_callback (e : t) (db : ptr) (sql : string) (msg : cstr)
    : t * Z * cstr * list invocation :=
  (engine_exec e db sql msg,
   if bool_decide ((engine_exec e db sql msg).1.2 = SQLITE_OK) then rows e else []).

#[global] Instance scripted_rows : EngineRows t := {
  engine_exec_callback := exec_callback;
  engine_last_insert_rowid e _ := rowid e;
  engine_exec_callback_exec _ _ _ _ := eq_refl
}.

Definition world (e : t) : World t := mk_world e [].

End ScriptedRows.

(** ** Reading a result set *)

(** The result sets that the public members can produce. *)
Inductive reachable : ResultSet.t → Prop :=
| reachable_new : reachable ResultSet.new
| reachable_addRecord_move record rs :
    reachable rs → reachable (ResultSet.addRecord_move record rs)
| reachable_addRecord count row cols rs :
    reachable rs → reachable (ResultSet.addRecord count row cols rs)
| reachable_next rs : reachable rs → reachable (ResultSet.next rs).1.

(** [k] calls of [next()]. *)
Definition next_n (k : nat) (rs : ResultSet.t) : ResultSet.t :=
  Nat.iter k (λ r, (ResultSet.next r).1) rs.

(** The loop [while (rs) { ... *iterator ...; rs.next(); }] of a reader, as
    the list of the rows it sees, for at most [fuel] rounds. *)
Fixpoint traverse (fuel : nat) (rs : ResultSet.t) : list (gmap string string) :=
  match fuel with
  | O => []
  | S fuel' =>
      if ResultSet.to_bool rs then
        match ResultSet.current rs with
        | Some row => row :: traverse fuel' (ResultSet.next rs).1
        | None => []
        end
      else []
  end.

(** The first index from [i], among [n], whose column has the name [k]. *)
Fixpoint first_named (n i : nat) (cols : nat → string) (k : string) : option nat :=
  match n with
  | O => None
  | S n' => if bool_decide (cols i = k) then Some i else first_named n' (S i) cols k
  end.

(** The row that the array overload of [addRecord] builds. *)
Definition row_of (i : invocation) : gmap string string :=
  ResultSet.fill (Z.to_nat (inv_count i)) 0 (inv_row i) (inv_cols i) ∅.

(** The callback was called with columns: [addRecord] adds a row. *)
Definition delivers_columns (i : invocation) : Prop := inv_count i ≠ 0%Z.

#[global] Instance delivers_columns_dec (i : invocation) : Decision (delivers_columns i).
Proof. unfold delivers_columns. apply _. Defined.

(** ** Stepping a statement *)

Section Stepping.
Context {E : Type} `{Engine E}.

(** The world after [k] calls of [sqlite3_step] on [st]. *)
Fixpoint after_steps (k : nat) (st : ptr) (w : World E) : World E :=
  match k with
  | O => w
  | S k' => after_steps k' st (sqlite3_step st w).1
  end.

(** The status that the call after these [k] returns. *)
Definition step_status (k : nat) (st : ptr) (w : World E) : Z :=
  (sqlite3_step st (after_steps k st w)).2.

(** The rows that [k] successive steps make current, read column by
    column; [None] when a column of one of them is an SQL NULL. *)
Fixpoint rows_read (k : nat) (st : ptr) (w : World E)
    : option (list (gmap string string)) :=
  match k with
  | O => Some []
  | S k' =>
      let w1 := (sqlite3_step st w).1 in
      record ← PreparedStatement.read_columns
                 (Z.to_nat (sqlite3_column_count st w1)) 0 st w1 ∅;
      rest ← rows_read k' st w1;
      Some (record :: rest)
  end.

(** What the destructor finalizes. *)
Definition finalized (st : ptr) : list call :=
  if st is Some _ then [call_finalize st] else [].

End Stepping.

(** Two states of one statement: the same handles and the same count of
    placeholders. *)
Definition same_statement (a b : PreparedStatement.t) : Prop :=
  PreparedStatement.db a = PreparedStatement.db b
  ∧ PreparedStatement.stmt a = PreparedStatement.stmt b
  ∧ PreparedStatement.paramCount a = PreparedStatement.paramCount b.

(** An engine with two rows to give, of one text column. *)
Definition two_text_rows : Scripted.t :=
  Scripted.mk (SQLITE_OK, Some 1) [] (SQLITE_OK, Some 2) []
    [SQLITE_ROW; SQLITE_ROW] [("x", Some "1")] "not an error".

(** An engine that refuses the end of a transaction with a message. *)
Definition end_fails : ScriptedRows.t :=
  ScriptedRows.mk
    (Scripted.mk (SQLITE_OK, Some 1)
       [(SQLITE_OK, None); (1%Z, Some "cannot commit - no transaction is active")]
       (SQLITE_OK, Some 2) [] [] [] "cannot commit")
    [] 0.

(** Three calls of the row callback, the second without columns. *)
Definition sample_invocations : list invocation :=
  [ mk_invocation 2 (λ i, if i is O then Some "1" else None)
      (λ i, if i is O then "id" else "name");
    mk_invocation 0 (λ _, None) (λ _, EmptyString);
    mk_invocation 1 (λ _, Some "2") (λ _, "id") ].

Definition with_sample_rows : ScriptedRows.t :=
  ScriptedRows.mk Scripted.quiet sample_invocations 0.

(** * Properties *)

(** ** ResultSet: additions and the cursor *)

Lemma apply_addition_appends (rs : ResultSet.t) (a : addition) :
  non_empty_record a →
  ∃ record, apply_addition rs a = ResultSet.mk (ResultSet.container rs ++ [record]) 0.
Proof.
  destruct a as [record | count row cols]; simpl; intros Hne.
  - by exists record.
  - unfold ResultSet.addRecord.
    destruct (Z.eqb_spec count 0) as [-> | _]; [lia |].
    by eexists.
Qed.

Lemma count_apply_addition (rs : ResultSet.t) (a : addition) :
  non_empty_record a →
  ResultSet.count (apply_addition rs a) = S (ResultSet.count rs).
Proof.
  intros Hne. destruct (apply_addition_appends rs a Hne) as [record ->].
  unfold ResultSet.count; simpl. rewrite length_app; simpl; lia.
Qed.

Lemma count_foldl_additions (adds : list addition) (rs : ResultSet.t) :
  Forall non_empty_record adds →
  ResultSet.count (foldl apply_addition rs adds) = ResultSet.count rs + length adds.
Proof.
  intros Hall. revert rs.
  induction Hall as [| a adds Ha _ IH]; intros rs; simpl; [lia |].
  rewrite IH, count_apply_addition by done. lia.
Qed.

Lemma rewind_apply_addition (rs : ResultSet.t) (a : addition) :
  non_empty_record a →
  ResultSet.iterator (apply_addition rs a) = 0
  ∧ ResultSet.current (apply_addition rs a) = head (ResultSet.container (apply_addition rs a))
  ∧ is_Some (ResultSet.current (apply_addition rs a))
  ∧ ResultSet.to_bool (apply_addition rs a) = true.
Proof.
  intros Hne. destruct (apply_addition_appends rs a Hne) as [record ->].
  unfold ResultSet.current, ResultSet.to_bool, ResultSet.end_; simpl.
  destruct (ResultSet.container rs) as [| r0 rows]; simpl.
  - repeat split; eauto.
  - repeat split; eauto.
Qed.

(** C5.  Additions of non-empty records, by either overload of [addRecord],
    to any result set: [count()] grows by their number, so it is their number
    when the result set was freshly constructed; and each single addition,
    wherever the cursor stood, leaves the cursor on the first stored row. *)
Theorem addRecord_count_and_rewind (adds : list addition) :
  Forall non_empty_record adds →
  (∀ rs0, ResultSet.count (foldl apply_addition rs0 adds)
          = ResultSet.count rs0 + length adds)
  ∧ ResultSet.count (foldl apply_addition ResultSet.new adds) = length adds
  ∧ (∀ rs a, non_empty_record a →
       ResultSet.iterator (apply_addition rs a) = 0
       ∧ ResultSet.current (apply_addition rs a)
         = head (ResultSet.container (apply_addition rs a))
       ∧ is_Some (ResultSet.current (apply_addition rs a))
       ∧ ResultSet.to_bool (apply_addition rs a) = true).
Proof.
  intros Hall. split; [| split].
  - intros rs0. by apply count_foldl_additions.
  - by rewrite count_foldl_additions.
  - intros rs a. apply rewind_apply_addition.
Qed.

Lemma sample_additions_non_empty : Forall non_empty_record sample_additions.
Proof.
  constructor; [| constructor; [| constructor]]; simpl; [| lia].
  intros Hempty. by apply (f_equal (λ m : gmap string string, m !! "id")) in Hempty.
Qed.

Lemma addRecord_count_and_rewind_witness :
  ResultSet.count (foldl apply_addition ResultSet.new sample_additions) = 2
  ∧ ResultSet.iterator
      (apply_addition (ResultSet.next (ResultSet.mk [ {[ "id" := "0" ]} ] 0)).1
                      (add_record {[ "id" := "1" ]})) = 0.
Proof.
  destruct (addRecord_count_and_rewind sample_additions sample_additions_non_empty)
    as (_ & Hcount & Hrewind).
  split; [exact Hcount |].
  apply Hrewind. simpl. intros Hempty.
  by apply (f_equal (λ m : gmap string string, m !! "id")) in Hempty.
Defined.

(** ** ResultSet: typed reads *)

Section Get.
Context {T : Type} `{StreamExtract T}.

Lemma get_present (rs : ResultSet.t) row (name text : string) :
  ResultSet.current rs = Some row → row !! name = Some text →
  ResultSet.get (T:=T) rs name = Returns (stream_extract text)
  ∧ ResultSet.get_string rs name = Returns (getline text)
  ∧ ResultSet.get_tm rs name = Returns (get_time "%Y-%m-%d %H:%M:%S" text tm_zero).
Proof.
  intros Hrow Hcol.
  unfold ResultSet.get, ResultSet.get_string, ResultSet.get_tm.
  by rewrite Hrow, Hcol.
Qed.

Lemma get_absent (rs : ResultSet.t) row (name : string) :
  ResultSet.current rs = Some row → row !! name = None →
  ResultSet.get (T:=T) rs name = Throws (ColumnNotFound name)
  ∧ ResultSet.get_string rs name = Throws (ColumnNotFound name)
  ∧ ResultSet.get_tm rs name = Throws (ColumnNotFound name).
Proof.
  intros Hrow Hcol.
  unfold ResultSet.get, ResultSet.get_string, ResultSet.get_tm.
  by rewrite Hrow, Hcol.
Qed.

(** C8.  With the cursor on a row, [get<T>] and its two specializations
    throw [ColumnNotFound] exactly when the row has no such column; a
    handler for [ColumnNotFound] catches that error and no plain
    [SQLite3Error]; and when the column is there, the call returns the
    conversion of the text stored in the row under the cursor. *)
Theorem get_throws_ColumnNotFound_iff_absent (rs : ResultSet.t) row (name : string) :
  ResultSet.container rs !! ResultSet.iterator rs = Some row →
  ((ResultSet.get (T:=T) rs name = Throws (ColumnNotFound name) ↔ row !! name = None)
   ∧ (ResultSet.get_string rs name = Throws (ColumnNotFound name) ↔ row !! name = None)
   ∧ (ResultSet.get_tm rs name = Throws (ColumnNotFound name) ↔ row !! name = None))
  ∧ (catches catch_ColumnNotFound (ColumnNotFound name) = true
     ∧ ∀ message, catches catch_ColumnNotFound (SQLite3Error message) = false)
  ∧ (∀ text, row !! name = Some text →
       ResultSet.get (T:=T) rs name = Returns (stream_extract text)
       ∧ ResultSet.get_string rs name = Returns (getline text)
       ∧ ResultSet.get_tm rs name
         = Returns (get_time "%Y-%m-%d %H:%M:%S" text tm_zero)).
Proof.
  intros Hrow. split; [| split].
  - destruct (row !! name) as [text |] eqn:Hcol.
    + destruct (get_present rs row name text Hrow Hcol) as (-> & -> & ->).
      repeat split; intros; discriminate.
    + destruct (get_absent rs row name Hrow Hcol) as (-> & -> & ->).
      repeat split; intros; reflexivity.
  - split; [reflexivity | intros; reflexivity].
  - intros text Hcol. by apply (get_present rs row).
Qed.

End Get.

Lemma get_throws_ColumnNotFound_iff_absent_witness :
  ResultSet.get (T:=int) sample_rows "name" = Throws (ColumnNotFound "name")
  ∧ ResultSet.get (T:=int) sample_rows "id" = Returns 42%Z.
Proof.
  pose proof (get_throws_ColumnNotFound_iff_absent (T:=int) sample_rows
                {[ "id" := "42" ]} "name" eq_refl) as ((Hname & _) & _ & _).
  pose proof (get_throws_ColumnNotFound_iff_absent (T:=int) sample_rows
                {[ "id" := "42" ]} "id" eq_refl) as (_ & _ & Hid).
  split.
  - apply Hname. reflexivity.
  - apply (Hid "42"). reflexivity.
Defined.

(** ** Text of numbers and dates *)

Ltac each_digit d :=
  let Hcases := fresh "Hcases" in
  assert (d = 0 ∨ d = 1 ∨ d = 2 ∨ d = 3 ∨ d = 4 ∨ d = 5 ∨ d = 6 ∨ d = 7 ∨ d = 8 ∨ d = 9)%Z
    as Hcases by lia;
  repeat (destruct Hcases as [-> | Hcases]; [reflexivity |]);
  subst; reflexivity.

Lemma digit_of_digit_char (d : Z) :
  (0 ≤ d ≤ 9)%Z → digit_of (digit_char d) = Some d.
Proof. intros Hd. each_digit d. Qed.

Lemma skipws_digit (d : Z) (s : string) :
  (0 ≤ d ≤ 9)%Z → skipws (String (digit_char d) s) = String (digit_char d) s.
Proof. intros Hd. each_digit d. Qed.

Lemma read_sign_digit (d : Z) (s : string) :
  (0 ≤ d ≤ 9)%Z → read_sign (String (digit_char d) s) = (false, String (digit_char d) s).
Proof. intros Hd. each_digit d. Qed.

Lemma read_digits_stop (s : string) (acc : option Z) :
  no_digit_ahead s → read_digits s acc = acc.
Proof. destruct s as [| c s]; simpl; [done |]. by intros ->. Qed.

Lemma read_digits_digits_text (ds : list Z) (rest : string) (v : Z) :
  Forall is_digit ds → no_digit_ahead rest →
  read_digits (digits_text ds rest) (Some v)
  = Some (foldl (λ acc d, acc * 10 + d)%Z v ds).
Proof.
  intros Hds Hrest. revert v.
  induction Hds as [| d ds Hd _ IH]; intros v; cbn [digits_text foldl].
  - by apply read_digits_stop.
  - cbn [read_digits]. rewrite digit_of_digit_char by done. apply IH.
Qed.

Lemma extract_int_digits (d : Z) (ds : list Z) (rest : string) :
  Forall is_digit (d :: ds) → no_digit_ahead rest →
  extract_int (digits_text (d :: ds) rest) = clamp_int (decimal (d :: ds))
  ∧ extract_int (String "-" (digits_text (d :: ds) rest)) = clamp_int (- decimal (d :: ds)).
Proof.
  intros Hds Hrest. pose proof (Forall_inv Hds) as Hd.
  pose proof (Forall_inv_tail Hds) as Htail.
  assert (read_digits (digits_text (d :: ds) rest) None = Some (decimal (d :: ds))) as Hread.
  { cbn [digits_text read_digits]. rewrite digit_of_digit_char by done.
    by rewrite read_digits_digits_text. }
  split.
  - unfold extract_int. cbn [digits_text]. rewrite skipws_digit, read_sign_digit by done.
    cbn [digits_text] in Hread. cbv beta iota. by rewrite Hread.
  - unfold extract_int. change (skipws (String "-" ?s)) with (String "-" s).
    change (read_sign (String "-" ?s)) with (true, s). cbv beta iota.
    by rewrite Hread.
Qed.

Lemma getline_without_LF (s : string) :
  count_char LF s = 0 → getline s = s.
Proof.
  induction s as [| c s IH]; simpl; [done |].
  destruct (Ascii.eqb_spec c LF) as [-> | Hc]; [done |].
  intros Hcount. f_equal. apply IH. lia.
Qed.

Lemma getline_has_no_LF (s : string) : count_char LF (getline s) = 0.
Proof.
  induction s as [| c s IH]; simpl; [done |].
  destruct (Ascii.eqb_spec c LF) as [-> | Hc]; simpl; [done |].
  destruct (Ascii.eqb_spec c LF); [done | lia].
Qed.

Lemma getline_prefix (s : string) :
  ∃ rest, s = getline s +:+ rest ∧ (rest = EmptyString ∨ ∃ r, rest = String LF r).
Proof.
  induction s as [| c s (rest & Hs & Hrest)]; simpl.
  - exists EmptyString. by split; [| left].
  - destruct (Ascii.eqb_spec c LF) as [-> | Hc]; simpl.
    + exists (String LF s). split; [done | right; by eexists].
    + exists rest. split; [| done].
      change (String c s = String c (getline s +:+ rest)). by f_equal.
Qed.

Lemma read_num_digit (len : nat) (d : Z) (s : string) (acc : option Z) :
  (0 ≤ d ≤ 9)%Z →
  read_num (S len) (String (digit_char d) s) acc
  = read_num len s (Some (default 0 acc * 10 + d)%Z).
Proof. intros Hd. cbn [read_num]. by rewrite digit_of_digit_char. Qed.

Lemma read_num_done (s : string) (v : Z) : read_num 0 s (Some v) = Some (v, s).
Proof. reflexivity. Qed.

Lemma read_num_two_digits (n : Z) (rest : string) :
  (0 ≤ n < 100)%Z → read_num 2 (two_digits n rest) None = Some (n, rest).
Proof.
  intros Hn. unfold two_digits.
  rewrite !read_num_digit, read_num_done by (Z.to_euclidean_division_equations; lia).
  cbn [default from_option id]. do 2 f_equal. Z.to_euclidean_division_equations; lia.
Qed.

Lemma read_num_four_digits (n : Z) (rest : string) :
  (0 ≤ n < 10000)%Z → read_num 4 (four_digits n rest) None = Some (n, rest).
Proof.
  intros Hn. unfold four_digits, two_digits.
  rewrite !read_num_digit, read_num_done by (Z.to_euclidean_division_equations; lia).
  cbn [default from_option id]. do 2 f_equal. Z.to_euclidean_division_equations; lia.
Qed.

Lemma read_field_two_digits (lo hi n : Z) (rest : string) :
  (0 ≤ n < 100)%Z → (lo ≤ n ≤ hi)%Z →
  read_field lo hi 2 (two_digits n rest) = Some (n, rest).
Proof.
  intros Hn Hrange. unfold read_field. rewrite read_num_two_digits by done.
  destruct (Z.leb_spec lo n), (Z.leb_spec n hi); simpl; first [done | lia].
Qed.

Lemma read_field_four_digits (lo hi n : Z) (rest : string) :
  (0 ≤ n < 10000)%Z → (lo ≤ n ≤ hi)%Z →
  read_field lo hi 4 (four_digits n rest) = Some (n, rest).
Proof.
  intros Hn Hrange. unfold read_field. rewrite read_num_four_digits by done.
  destruct (Z.leb_spec lo n), (Z.leb_spec n hi); simpl; first [done | lia].
Qed.

Lemma get_time_conversion (spec : ascii) (fmt input : string) (t : tm) :
  get_time (String "%" (String spec fmt)) input t
  = match conversion spec input t with
    | Some (t', rest) => get_time fmt rest t'
    | None => t
    end.
Proof. reflexivity. Qed.

Lemma get_time_literal (c : ascii) (fmt rest : string) (t : tm) :
  (c =? "%")%char = false → isspace c = false →
  get_time (String c fmt) (String c rest) t = get_time fmt rest t.
Proof.
  intros Hpercent Hspace. cbn [get_time]. by rewrite Hpercent, Hspace, Ascii.eqb_refl.
Qed.

Lemma get_time_space (fmt input : string) (t : tm) :
  get_time (String " " fmt) input t = get_time fmt (skipws input) t.
Proof. reflexivity. Qed.

Lemma skipws_space (s : string) : skipws (String " " s) = skipws s.
Proof. reflexivity. Qed.

Lemma skipws_two_digits (n : Z) (rest : string) :
  (0 ≤ n < 100)%Z → skipws (two_digits n rest) = two_digits n rest.
Proof.
  intros Hn. unfold two_digits.
  apply skipws_digit. Z.to_euclidean_division_equations; lia.
Qed.

Ltac read_conversion lemma :=
  rewrite get_time_conversion; unfold conversion at 1;
  cbn [Ascii.eqb Bool.eqb];
  rewrite lemma by lia;
  cbn [mbind option_bind tm_sec tm_min tm_hour tm_mday tm_mon tm_year].

Lemma get_time_datetime_text (Y M D h mi s : Z) :
  (0 ≤ Y ≤ 9999)%Z → (1 ≤ M ≤ 12)%Z → (1 ≤ D ≤ 31)%Z →
  (0 ≤ h ≤ 23)%Z → (0 ≤ mi ≤ 59)%Z → (0 ≤ s ≤ 60)%Z →
  get_time "%Y-%m-%d %H:%M:%S" (datetime_text Y M D h mi s) tm_zero
  = mk_tm s mi h D (M - 1) (Y - 1900).
Proof.
  intros HY HM HD Hh Hmi Hs. unfold datetime_text, tm_zero.
  read_conversion read_field_four_digits.
  rewrite get_time_literal by reflexivity.
  read_conversion read_field_two_digits.
  rewrite get_time_literal by reflexivity.
  read_conversion read_field_two_digits.
  rewrite get_time_space, skipws_space, skipws_two_digits by lia.
  read_conversion read_field_two_digits.
  rewrite get_time_literal by reflexivity.
  read_conversion read_field_two_digits.
  rewrite get_time_literal by reflexivity.
  read_conversion read_field_two_digits.
  reflexivity.
Qed.

Example datetime_text_example :
  datetime_text 2024 1 15 10 30 0 = "2024-01-15 10:30:00".
Proof. reflexivity. Qed.

Lemma get_time_datetime_text_then (Y M D h mi s : Z) (rest : string) :
  (0 ≤ Y ≤ 9999)%Z → (1 ≤ M ≤ 12)%Z → (1 ≤ D ≤ 31)%Z →
  (0 ≤ h ≤ 23)%Z → (0 ≤ mi ≤ 59)%Z → (0 ≤ s ≤ 60)%Z →
  get_time "%Y-%m-%d %H:%M:%S" (datetime_text Y M D h mi s +:+ rest) tm_zero
  = mk_tm s mi h D (M - 1) (Y - 1900).
Proof.
  intros HY HM HD Hh Hmi Hs.
  change (datetime_text Y M D h mi s +:+ rest)
    with (four_digits Y (String "-" (two_digits M (String "-" (two_digits D
            (String " " (two_digits h (String ":" (two_digits mi (String ":"
              (two_digits s rest))))))))))).
  unfold tm_zero.
  read_conversion read_field_four_digits.
  rewrite get_time_literal by reflexivity.
  read_conversion read_field_two_digits.
  rewrite get_time_literal by reflexivity.
  read_conversion read_field_two_digits.
  rewrite get_time_space, skipws_space, skipws_two_digits by lia.
  read_conversion read_field_two_digits.
  rewrite get_time_literal by reflexivity.
  read_conversion read_field_two_digits.
  rewrite get_time_literal by reflexivity.
  read_conversion read_field_two_digits.
  reflexivity.
Qed.

Lemma read_sign_first (c : ascii) (s : string) :
  read_sign (String c s)
  = if (c =? "-")%char then (true, s)
    else if (c =? "+")%char then (false, s)
    else (false, String c s).
Proof. destruct c as [[] [] [] [] [] [] [] []]; reflexivity. Qed.

Lemma skipws_chars_text (bs : list ascii) (rest : string) :
  Forall is_blank bs → skipws (chars_text bs rest) = skipws rest.
Proof.
  induction 1 as [| b bs Hb _ IH]; simpl; [done |]. unfold is_blank in Hb.
  by rewrite Hb.
Qed.

Lemma skipws_sign_text (sg : sign_mark) (d : Z) (s : string) :
  (0 ≤ d ≤ 9)%Z →
  skipws (sign_text sg (String (digit_char d) s)) = sign_text sg (String (digit_char d) s).
Proof.
  intros Hd. destruct sg; cbn [sign_text]; [by apply skipws_digit | reflexivity | reflexivity].
Qed.

Lemma read_sign_sign_text (sg : sign_mark) (d : Z) (s : string) :
  (0 ≤ d ≤ 9)%Z →
  read_sign (sign_text sg (String (digit_char d) s))
  = (if sg is minus_mark then true else false, String (digit_char d) s).
Proof.
  intros Hd. destruct sg; cbn [sign_text]; [by apply read_sign_digit | reflexivity | reflexivity].
Qed.

(** Blanks, a sign and digits in front of a text give the number; the text
    is read up to the first character that is no digit. *)
Lemma extract_int_number (bs : list ascii) (sg : sign_mark) (d : Z) (ds : list Z)
    (rest : string) :
  Forall is_blank bs → Forall is_digit (d :: ds) → no_digit_ahead rest →
  extract_int (chars_text bs (sign_text sg (digits_text (d :: ds) rest)))
  = clamp_int (signed_value sg (decimal (d :: ds))).
Proof.
  intros Hbs Hds Hrest. pose proof (Forall_inv Hds) as Hd.
  pose proof (Forall_inv_tail Hds) as Htail.
  assert (read_digits (digits_text (d :: ds) rest) None = Some (decimal (d :: ds))) as Hread.
  { cbn [digits_text read_digits]. rewrite digit_of_digit_char by done.
    by rewrite read_digits_digits_text. }
  unfold extract_int. rewrite skipws_chars_text by done.
  cbn [digits_text] in *. rewrite skipws_sign_text, read_sign_sign_text by done.
  cbv beta iota. rewrite Hread. by destruct sg.
Qed.

(** Without a digit after the blanks and the sign, the value is 0. *)
Lemma extract_int_no_number (bs : list ascii) (s : string) :
  Forall is_blank bs → no_number_ahead s →
  extract_int (chars_text bs s) = 0%Z.
Proof.
  intros Hbs Hs. unfold extract_int. rewrite skipws_chars_text by done.
  destruct s as [| c s]; [done |]. destruct Hs as [Hblank Hs].
  cbn [skipws]. rewrite Hblank, read_sign_first.
  destruct (c =? "-")%char eqn:Hminus.
  - rewrite orb_true_r in Hs. cbv beta iota. by rewrite read_digits_stop.
  - destruct (c =? "+")%char eqn:Hplus.
    + simpl in Hs. cbv beta iota. by rewrite read_digits_stop.
    + simpl in Hs. cbv beta iota. cbn [read_digits]. by rewrite Hs.
Qed.




(** ** PreparedStatement: binding *)

Lemma to_int_small (n : Z) : (INT_MIN ≤ n ≤ INT_MAX)%Z → to_int n = n.
Proof.
  unfold to_int, INT_MIN, INT_MAX. intros Hn. rewrite Z.mod_small; lia.
Qed.

Section Binding.
Context {E : Type} `{Engine E}.
Import PreparedStatement.

Lemma prepareParam_unfold (p : param) (index : Z) (this : t) (w : World E) :
  prepareParam p index this w
  = (with_rc this (engine_bind (engine w) (stmt this) index (binding_of p)).2,
     mk_world (engine_bind (engine w) (stmt this) index (binding_of p)).1
              (calls w ++ [call_bind (stmt this) index (binding_of p)])).
Proof.
  unfold prepareParam, sqlite3_bind.
  by destruct (engine_bind (engine w) (stmt this) index (binding_of p)).
Qed.

Lemma prepareParam_sqlite3_bind (p : param) (index : Z) (this : t) (w : World E) :
  prepareParam p index this w
  = (with_rc this (sqlite3_bind (stmt this) index (binding_of p) w).2,
     (sqlite3_bind (stmt this) index (binding_of p) w).1).
Proof.
  unfold prepareParam. by destruct (sqlite3_bind (stmt this) index (binding_of p) w).
Qed.

(** C3.  A null [const char*] reaches the engine as a null binding; a
    non-null one, and a [std::string], reach it as a text binding, the
    [std::string] with its length as an [int], which is the length itself up
    to INT_MAX and 0 for the empty string; and a null binding is no text
    binding. *)
Theorem null_pointer_binds_null_and_text_binds_text
    (index : Z) (this : t) (w : World E) :
  calls (prepareParam (char_pointer None) index this w).2
  = calls w ++ [call_bind (stmt this) index bind_null]
  ∧ (∀ text, calls (prepareParam (char_pointer (Some text)) index this w).2
             = calls w ++ [call_bind (stmt this) index (bind_text text (-1))])
  ∧ (∀ s, calls (prepareParam (std_string s) index this w).2
          = calls w ++ [call_bind (stmt this) index
                          (bind_text s (to_int (Z.of_nat (String.length s))))])
  ∧ (∀ s, (Z.of_nat (String.length s) ≤ INT_MAX)%Z →
          calls (prepareParam (std_string s) index this w).2
          = calls w ++ [call_bind (stmt this) index
                          (bind_text s (Z.of_nat (String.length s)))])
  ∧ calls (prepareParam (std_string EmptyString) index this w).2
    = calls w ++ [call_bind (stmt this) index (bind_text EmptyString 0)]
  ∧ (∀ text nByte, bind_null ≠ bind_text text nByte).
Proof.
  split; [by rewrite prepareParam_unfold |].
  split; [intros text; by rewrite prepareParam_unfold |].
  split; [intros s; by rewrite prepareParam_unfold |].
  split; [| split; [by rewrite prepareParam_unfold | done]].
  intros s Hlength. rewrite prepareParam_unfold. cbn [binding_of snd].
  rewrite to_int_small; [done |]. unfold INT_MIN. lia.
Qed.

Lemma expand_app (pre post : list param) (index : Z) (this : t) (w : World E) :
  expand (pre ++ post) index this w
  = expand post (index + Z.of_nat (length pre))
      (expand pre index this w).1 (expand pre index this w).2.
Proof.
  revert index this w.
  induction pre as [| a pre IH]; intros index this w.
  - simpl. by rewrite Z.add_0_r.
  - cbn [expand app].
    destruct (prepareParam a (index + 1) this w) as [this' w'].
    rewrite IH.
    by replace (index + Z.of_nat (length (a :: pre)))%Z
      with (index + 1 + Z.of_nat (length pre))%Z by (simpl; lia).
Qed.

Lemma expand_keeps_handles (args : list param) (index : Z) (this : t) (w : World E) :
  db (expand args index this w).1 = db this
  ∧ stmt (expand args index this w).1 = stmt this
  ∧ paramCount (expand args index this w).1 = paramCount this.
Proof.
  revert index this w.
  induction args as [| a args IH]; intros index this w; [done |].
  cbn [expand]. rewrite prepareParam_unfold.
  destruct (IH (index + 1)%Z
              (with_rc this (engine_bind (engine w) (stmt this) (index + 1) (binding_of a)).2)
              (mk_world (engine_bind (engine w) (stmt this) (index + 1) (binding_of a)).1
                 (calls w ++ [call_bind (stmt this) (index + 1) (binding_of a)])))
    as (-> & -> & ->).
  done.
Qed.

(** The calls of a pack expansion: one binding for each argument, at the
    positions after [index], in order. *)
Lemma expand_calls (args : list param) (index : Z) (this : t) (w : World E) :
  calls (expand args index this w).2
  = calls w ++ imap (λ i a, call_bind (stmt this) (index + 1 + Z.of_nat i) (binding_of a)) args.
Proof.
  revert index this w.
  induction args as [| a args IH]; intros index this w.
  - simpl. by rewrite app_nil_r.
  - cbn [expand imap]. rewrite prepareParam_unfold, IH. simpl.
    rewrite <- app_assoc. simpl. rewrite Z.add_0_r. do 2 f_equal.
    apply imap_ext. intros i x _. simpl. f_equal. lia.
Qed.

Lemma bind_wrong_count (args : list param) (this : t) (w : World E) :
  Z.of_nat (length args) ≠ to_size_t (paramCount this) →
  bind args this w = (Throws (SQLite3Error COUNT_MISMATCH), this, w).
Proof. intros Hcount. unfold bind. by rewrite bool_decide_eq_true_2. Qed.

Lemma bind_right_count (args : list param) (this : t) (w : World E) :
  Z.of_nat (length args) = to_size_t (paramCount this) →
  bind args this w
  = (if bool_decide (rc (expand args 0 this w).1 ≠ SQLITE_OK)
     then Throws (SQLite3Error
                    (sqlite3_errmsg (db (expand args 0 this w).1) (expand args 0 this w).2))
     else Returns tt,
     (expand args 0 this w).1, (expand args 0 this w).2).
Proof.
  intros Hcount. unfold bind.
  rewrite bool_decide_eq_false_2 by (by intros ?).
  destruct (expand args 0 this w) as [this' w']; simpl.
  by destruct (bool_decide (rc this' ≠ SQLITE_OK)).
Qed.

Lemma new_paramCount (db0 : ptr) (query : string) (cargs : list param)
    (w0 w1 : World E) (ps : t) :
  new db0 query cargs w0 = (Returns ps, w1) →
  paramCount ps = to_int (Z.of_nat (count_char "?" query)).
Proof.
  unfold new.
  destruct (sqlite3_prepare_v3 db0 query _ w0) as [[w' r] st].
  destruct (bool_decide (r ≠ SQLITE_OK)); [done |].
  destruct (bool_decide (0 < length cargs)).
  - destruct (bind cargs _ w') as [[o this'] w2] eqn:Hbind.
    destruct o; try done. intros [= <- <-].
    unfold bind in Hbind.
    destruct (bool_decide (_ ≠ _)); [done |].
    pose proof (expand_keeps_handles cargs 0
      {| db := db0; stmt := st; rc := r;
         paramCount := to_int (Z.of_nat (count_char "?" query)) |} w') as (_ & _ & Hn).
    destruct (expand cargs 0 _ w') as [this2 w3]. simpl in Hn.
    destruct (bool_decide (rc this2 ≠ SQLITE_OK)); [done |].
    by injection Hbind as <- <-.
  - by intros [= <- <-].
Qed.

Lemma to_size_t_to_int_small (n : Z) :
  (0 ≤ n ≤ INT_MAX)%Z → to_size_t (to_int n) = n.
Proof.
  unfold to_size_t, to_int, INT_MAX. intros Hn.
  rewrite (Z.mod_small (n + 2 ^ 31)) by lia.
  rewrite Z.mod_small; lia.
Qed.

End Binding.

Section BindClaims.
Context {E : Type} `{Engine E}.
Import PreparedStatement.

(** C4, as amended.  A statement constructed from a query with P question
    marks, P within the range of [int] as the count is kept in one: [bind]
    with P values goes on to bind each of them, at positions 1 to P, and ends
    on the check of the engine status, not on the count error; [bind] with
    another number of values throws the count error and leaves the statement
    and the engine as they were, no call made. *)
Theorem bind_accepts_exactly_the_placeholder_count
    (db0 : ptr) (query : string) (cargs : list param) (w0 w1 : World E) (ps : t) :
  (Z.of_nat (count_char "?" query) ≤ INT_MAX)%Z →
  new db0 query cargs w0 = (Returns ps, w1) →
  ∀ (args : list param) (w : World E),
    (length args = count_char "?" query →
       bind args ps w
       = (if bool_decide (rc (expand args 0 ps w).1 ≠ SQLITE_OK)
          then Throws (SQLite3Error (sqlite3_errmsg (db ps) (expand args 0 ps w).2))
          else Returns tt,
          (expand args 0 ps w).1, (expand args 0 ps w).2)
       ∧ calls (expand args 0 ps w).2
         = calls w ++ imap (λ i a, call_bind (stmt ps) (1 + Z.of_nat i) (binding_of a)) args)
    ∧ (length args ≠ count_char "?" query →
         bind args ps w = (Throws (SQLite3Error COUNT_MISMATCH), ps, w)).
Proof.
  intros Hsmall Hnew args w.
  pose proof (new_paramCount _ _ _ _ _ _ Hnew) as Hcount.
  assert (to_size_t (paramCount ps) = Z.of_nat (count_char "?" query)) as Hsize.
  { rewrite Hcount. apply to_size_t_to_int_small. lia. }
  split; intros Hlen.
  - rewrite bind_right_count by (rewrite Hsize; lia).
    destruct (expand_keeps_handles args 0 ps w) as (-> & _ & _).
    split; [done |]. by rewrite expand_calls.
  - apply bind_wrong_count. rewrite Hsize. lia.
Qed.

(** A [bind] with the right number of values, the last of them [a] after
    the values [pre]: [bind] throws, with the message of the engine, exactly
    when the binding of [a] did not succeed, whatever the bindings of [pre]
    returned. *)
Lemma bind_last_binding_decides
    (pre : list param) (a : param) (this : t) (w : World E) :
  Z.of_nat (length (pre ++ [a])) = to_size_t (paramCount this) →
  ∀ status w2,
    sqlite3_bind (stmt this) (Z.of_nat (length pre) + 1) (binding_of a)
      (expand pre 0 this w).2 = (w2, status) →
    bind (pre ++ [a]) this w
    = (if bool_decide (status ≠ SQLITE_OK)
       then Throws (SQLite3Error (sqlite3_errmsg (db this) w2))
       else Returns tt,
       with_rc this status, w2)
    ∧ ((∃ e, (bind (pre ++ [a]) this w).1.1 = Throws e) ↔ status ≠ SQLITE_OK).
Proof.
  intros Hcount status w2 Hlast.
  assert (expand (pre ++ [a]) 0 this w = (with_rc this status, w2)) as Hexpand.
  { rewrite expand_app. cbn [expand].
    rewrite prepareParam_sqlite3_bind.
    destruct (expand_keeps_handles pre 0 this w) as (Hdb & Hstmt & Hn).
    rewrite Hstmt, Z.add_0_l, Hlast. simpl.
    unfold with_rc. by rewrite Hdb, Hstmt, Hn. }
  assert (bind (pre ++ [a]) this w
          = (if bool_decide (status ≠ SQLITE_OK)
             then Throws (SQLite3Error (sqlite3_errmsg (db this) w2))
             else Returns tt,
             with_rc this status, w2)) as Hbind.
  { rewrite bind_right_count by done. by rewrite Hexpand. }
  split; [done |]. rewrite Hbind. simpl.
  destruct (decide (status = SQLITE_OK)) as [-> | Hne].
  - split; [intros [e ?]; done | done].
  - rewrite bool_decide_eq_true_2 by done. split; [done | by eexists].
Qed.

(** C6, as amended.  A [bind] with the right number of values tests the
    status once, after all the values: it throws, with the message of the
    engine, exactly when [rc] is not SQLITE_OK at that point.  With at least
    one value that [rc] is the status of the last binding of the call,
    whatever the earlier bindings returned; with no value no binding is made
    and it is the [rc] that the earlier operation left. *)
Theorem bind_checks_the_status_once_after_the_values
    (args : list param) (this : t) (w : World E) :
  Z.of_nat (length args) = to_size_t (paramCount this) →
  bind args this w
  = (if bool_decide (rc (expand args 0 this w).1 ≠ SQLITE_OK)
     then Throws (SQLite3Error (sqlite3_errmsg (db this) (expand args 0 this w).2))
     else Returns tt,
     (expand args 0 this w).1, (expand args 0 this w).2)
  ∧ ((∃ e, (bind args this w).1.1 = Throws e)
     ↔ rc (expand args 0 this w).1 ≠ SQLITE_OK)
  ∧ (args = [] → expand args 0 this w = (this, w))
  ∧ (∀ pre a, args = pre ++ [a] →
       rc (expand args 0 this w).1
       = (sqlite3_bind (stmt this) (Z.of_nat (length pre) + 1) (binding_of a)
            (expand pre 0 this w).2).2
       ∧ calls (expand args 0 this w).2
         = calls (expand pre 0 this w).2
             ++ [call_bind (stmt this) (Z.of_nat (length pre) + 1) (binding_of a)]).
Proof.
  intros Hcount.
  assert (bind args this w
          = (if bool_decide (rc (expand args 0 this w).1 ≠ SQLITE_OK)
             then Throws (SQLite3Error (sqlite3_errmsg (db this) (expand args 0 this w).2))
             else Returns tt,
             (expand args 0 this w).1, (expand args 0 this w).2)) as Hbind.
  { rewrite bind_right_count by done.
    by destruct (expand_keeps_handles args 0 this w) as (-> & _ & _). }
  split; [done |]. split; [| split].
  - rewrite Hbind. simpl. case_bool_decide as Hrc.
    + split; [done | by eexists].
    + split; [by intros [e ?] | done].
  - by intros ->.
  - intros pre a ->. rewrite expand_app. cbn [expand].
    rewrite prepareParam_sqlite3_bind.
    destruct (expand_keeps_handles pre 0 this w) as (_ & -> & _).
    rewrite Z.add_0_l. simpl. split; [done |].
    unfold sqlite3_bind. by destruct (engine_bind _ _ _ _).
Qed.

End BindClaims.

Lemma sample_statement_constructed :
  PreparedStatement.new (Some 1) sample_query [] (Scripted.world Scripted.quiet)
  = (Returns sample_statement,
     mk_world Scripted.quiet [call_prepare (Some 1) sample_query 32]).
Proof. reflexivity. Qed.

Lemma bind_accepts_exactly_the_placeholder_count_witness :
  (PreparedStatement.bind
     [PreparedStatement.integral 7; PreparedStatement.std_string "x"]
     sample_statement (Scripted.world Scripted.quiet)).1.1 = Returns tt
  ∧ PreparedStatement.bind [PreparedStatement.integral 7]
      sample_statement (Scripted.world Scripted.quiet)
    = (Throws (SQLite3Error PreparedStatement.COUNT_MISMATCH),
       sample_statement, Scripted.world Scripted.quiet).
Proof.
  assert (Z.of_nat (count_char "?" sample_query) ≤ INT_MAX)%Z as Hsmall
    by (vm_compute; discriminate).
  pose proof (bind_accepts_exactly_the_placeholder_count
                (Some 1) sample_query [] _ _ sample_statement
                Hsmall sample_statement_constructed) as Hbind.
  split.
  - destruct (Hbind [PreparedStatement.integral 7; PreparedStatement.std_string "x"]
                (Scripted.world Scripted.quiet)) as [Hright _].
    destruct (Hright eq_refl) as [-> _]. reflexivity.
  - destruct (Hbind [PreparedStatement.integral 7] (Scripted.world Scripted.quiet))
      as [_ Hwrong].
    apply Hwrong. vm_compute. discriminate.
Defined.

Lemma count_char_question_marks (n : nat) : count_char "?" (question_marks n) = n.
Proof. induction n as [| n IH]; simpl; [done | by rewrite IH]. Qed.

Lemma new_on_the_quiet_engine (query : string) :
  (PreparedStatement.new (Some 1) query [] (Scripted.world Scripted.quiet)).1
  = Returns (PreparedStatement.mk (Some 1) (Some 2) SQLITE_OK
               (to_int (Z.of_nat (count_char "?" query)))).
Proof. reflexivity. Qed.

Lemma to_int_wraps : to_int 4294967297 = 1%Z.
Proof. reflexivity. Qed.

(** C4, the counterexample.  The query has 2^32 + 1 question marks; the
    count kept in the statement is 1.  [bind] with one value goes through, and
    [bind] with as many values as there are question marks throws the count
    error. *)
Lemma bind_count_wraps_beyond_int :
  count_char "?" many_question_marks = Z.to_nat 4294967297
  ∧ (PreparedStatement.new (Some 1) many_question_marks []
       (Scripted.world Scripted.quiet)).1
    = Returns wrapped_statement
  ∧ PreparedStatement.bind [PreparedStatement.integral 7] wrapped_statement
      (Scripted.world Scripted.quiet)
    = (Returns tt, wrapped_statement,
       mk_world Scripted.quiet [call_bind (Some 2) 1 (bind_int 7)])
  ∧ PreparedStatement.bind
      (replicate (Z.to_nat 4294967297) (PreparedStatement.integral 7))
      wrapped_statement (Scripted.world Scripted.quiet)
    = (Throws (SQLite3Error PreparedStatement.COUNT_MISMATCH),
       wrapped_statement, Scripted.world Scripted.quiet).
Proof.
  split; [apply count_char_question_marks |].
  split; [| split; [reflexivity |]].
  - rewrite new_on_the_quiet_engine. unfold many_question_marks.
    rewrite count_char_question_marks, Z2Nat.id by lia.
    by rewrite to_int_wraps.
  - apply bind_wrong_count. rewrite length_replicate, Z2Nat.id by lia.
    vm_compute. discriminate.
Qed.

Lemma bind_checks_the_status_once_after_the_values_witness :
  (PreparedStatement.bind
     [PreparedStatement.integral 7; PreparedStatement.std_string "x"]
     sample_statement (Scripted.world first_binding_fails)).1.1 = Returns tt
  ∧ (sqlite3_bind (Some 2) 1 (bind_int 7) (Scripted.world first_binding_fails)).2 = 1%Z.
Proof.
  split; [| reflexivity].
  destruct (bind_checks_the_status_once_after_the_values
              [PreparedStatement.integral 7; PreparedStatement.std_string "x"]
              sample_statement (Scripted.world first_binding_fails) eq_refl)
    as [-> _].
  reflexivity.
Defined.

(** C6, the counterexample.  A statement without placeholders, after
    [execute()]: [rc] is SQLITE_DONE, and a [bind] without values throws the
    message of the engine though it makes no binding. *)
Lemma bind_without_values_throws_with_no_binding_made :
  PreparedStatement.execute 2 no_placeholders (Scripted.world Scripted.quiet)
  = (Returns tt, executed_statement,
     mk_world Scripted.quiet [call_step (Some 2)])
  ∧ PreparedStatement.bind [] executed_statement
      (mk_world Scripted.quiet [call_step (Some 2)])
    = (Throws (SQLite3Error "not an error"), executed_statement,
       mk_world Scripted.quiet [call_step (Some 2)]).
Proof. split; reflexivity. Qed.

(** ** SQLite3: raw statements and construction *)

Section Connection.
Context {E : Type} `{Engine E}.

(** C1, as amended.  [execute] with a null [sql] throws the error of the
    missing parameter and makes no call.  With any other [sql], the empty
    string included, it calls the engine once with that text; it returns
    exactly when the engine reports success, and when the engine reports
    another status and leaves a message, it throws that message. *)
Theorem execute_rejects_only_the_null_sql (this : SQLite3.t) (w : World E) :
  SQLite3.execute None this w = (Throws (SQLite3Error SQLite3.NO_SQL), this, w)
  ∧ ∀ text,
      (SQLite3.execute (Some text) this w).2
      = mk_world (engine_exec (engine w) (SQLite3.db this) text (SQLite3.errMsg this)).1.1
          (calls w ++ [call_exec (SQLite3.db this) text])
      ∧ (returns_normally (SQLite3.execute (Some text) this w).1.1
         ↔ (engine_exec (engine w) (SQLite3.db this) text (SQLite3.errMsg this)).1.2
           = SQLITE_OK)
      ∧ (∀ message,
           (engine_exec (engine w) (SQLite3.db this) text (SQLite3.errMsg this)).1.2
           ≠ SQLITE_OK →
           (engine_exec (engine w) (SQLite3.db this) text (SQLite3.errMsg this)).2
           = Some message →
           (SQLite3.execute (Some text) this w).1.1 = Throws (SQLite3Error message)).
Proof.
  split; [done |]. intros text.
  unfold SQLite3.execute, sqlite3_exec.
  destruct (engine_exec (engine w) (SQLite3.db this) text (SQLite3.errMsg this))
    as [[e r] msg]; simpl.
  destruct (decide (r = SQLITE_OK)) as [-> | Hr].
  - simpl. repeat split; [by eexists | done].
  - rewrite bool_decide_eq_true_2 by done. simpl. repeat split.
    + intros [u Hu]. by destruct msg.
    + done.
    + by intros message _ ->.
Qed.

(** When construction returns, the step performed last reported success,
    and the object records whether the open did. *)
Lemma new_returns_after_last_success (dbPath createStmt : cstr) (w w' : World E)
    (this : SQLite3.t) :
  SQLite3.new dbPath createStmt w = (Returns this, w') →
  SQLite3.result this = SQLITE_OK
  ∧ SQLite3.isOpened this = bool_decide ((sqlite3_open dbPath w).1.2 = SQLITE_OK).
Proof.
  unfold SQLite3.new.
  destruct (sqlite3_open dbPath w) as [[w1 r1] d]; simpl.
  destruct createStmt as [sql |].
  - destruct (sqlite3_exec d sql None w1) as [[w2 r2] msg].
    destruct (decide (r2 = SQLITE_OK)) as [-> | Hr].
    + by intros [= <- <-].
    + rewrite bool_decide_eq_true_2 by done. unfold SQLite3.init_error.
      by destruct msg.
  - destruct (decide (r1 = SQLITE_OK)) as [-> | Hr].
    + by intros [= <- <-].
    + by rewrite bool_decide_eq_true_2 by done.
Qed.

(** A creation script that fails with a message fails construction with an
    error. *)
Lemma new_throws_on_script_error (dbPath : cstr) (sql message : string)
    (w : World E) :
  (sqlite3_exec (sqlite3_open dbPath w).2 sql None (sqlite3_open dbPath w).1.1).1.2
  ≠ SQLITE_OK →
  (sqlite3_exec (sqlite3_open dbPath w).2 sql None (sqlite3_open dbPath w).1.1).2
  = Some message →
  ∃ text, (SQLite3.new dbPath (Some sql) w).1 = Throws (SQLite3Error text).
Proof.
  unfold SQLite3.new.
  destruct (sqlite3_open dbPath w) as [[w1 r1] d]; simpl.
  destruct (sqlite3_exec d sql None w1) as [[w2 r2] msg]; simpl.
  intros Hr ->. rewrite bool_decide_eq_true_2 by done. simpl. by eexists.
Qed.

End Connection.

(** C1, the counterexample.  With the empty string, [execute] calls the
    engine and returns: it does not throw the error of the missing
    parameter. *)
Lemma execute_empty_sql_reaches_the_engine :
  SQLite3.execute (Some EmptyString) sample_connection (Scripted.world Scripted.quiet)
  = (Returns tt, sample_connection,
     mk_world Scripted.quiet [call_exec (Some 1) EmptyString])
  ∧ (SQLite3.execute (Some EmptyString) sample_connection
       (Scripted.world Scripted.quiet)).1.1
    ≠ Throws (SQLite3Error SQLite3.NO_SQL)
  ∧ calls (SQLite3.execute (Some EmptyString) sample_connection
             (Scripted.world Scripted.quiet)).2
    ≠ calls (Scripted.world Scripted.quiet).
Proof. repeat split; discriminate. Qed.

(** C2 at its failing inputs.  The open fails.  Without a script, and with a
    script that the engine refuses without a message, the error message is
    built from the null [errMsg]: no [SQLite3Error] comes out.  With a script
    that the engine runs, the status of the open is overwritten and
    construction returns an object that is not opened. *)
Lemma new_after_failed_open :
  SQLite3.new missing_path None (Scripted.world cannot_open)
  = (Undefined, mk_world cannot_open [call_open missing_path])
  ∧ (SQLite3.new missing_path creation_script (Scripted.world cannot_open)).1
    = Undefined
  ∧ (SQLite3.new missing_path creation_script
       (Scripted.world cannot_open_script_runs)).1
    = Returns (SQLite3.mk (Some 1) None SQLITE_OK false).
Proof. repeat split. Qed.

(** ** PreparedStatement: moves *)

Section Moves.
Context {E : Type} `{Engine E}.
Import PreparedStatement.

Lemma store_same (m : memory) (a : nat) (v : t) : store m a v a = v.
Proof. unfold store. by rewrite bool_decide_eq_true_2. Qed.

Lemma store_other (m : memory) (a : nat) (v : t) (x : nat) :
  x ≠ a → store m a v x = m x.
Proof. intros Hne. unfold store. by rewrite bool_decide_eq_false_2. Qed.

(** The calls of a move assignment: the handle of the destination, when it
    is not null, is finalized. *)
Lemma move_assign_calls (self src : nat) (m : memory) (w : World E) :
  calls (move_assign self src m w).2
  = calls w ++ (if stmt (m self) is Some _ then [call_finalize (stmt (m self))] else []).
Proof.
  unfold move_assign, sqlite3_finalize; simpl.
  destruct (stmt (m self)); simpl; [| by rewrite app_nil_r].
  by destruct (engine_finalize (engine w) _).
Qed.

(** After a move assignment the handles of the source are null, so that its
    destructor makes no call. *)
Lemma move_assign_source_released (self src : nat) (m : memory) (w : World E) :
  db ((move_assign self src m w).1 src) = None
  ∧ stmt ((move_assign self src m w).1 src) = None
  ∧ ∀ w', destroy ((move_assign self src m w).1 src) w'
          = ((move_assign self src m w).1 src, w').
Proof.
  assert (stmt ((move_assign self src m w).1 src) = None) as Hstmt.
  { unfold move_assign. cbv zeta. cbn [fst]. by rewrite store_same. }
  split; [| split; [done |]].
  - unfold move_assign. cbv zeta. cbn [fst]. by rewrite !store_same.
  - intros w'. unfold destroy. by rewrite Hstmt.
Qed.

(** Between two objects, the destination takes the members of the source. *)
Lemma move_assign_adopts (self src : nat) (m : memory) (w : World E) :
  self ≠ src →
  (move_assign self src m w).1 self
  = mk (db (m src)) (stmt (m src)) (rc (m src)) (paramCount (m src)).
Proof.
  intros Hne. unfold move_assign. cbv zeta. cbn [fst].
  rewrite (store_other _ src) by done.
  rewrite (store_other _ src) by done.
  rewrite !store_same.
  by rewrite !(store_other _ self _ src) by done.
Qed.

(** The move constructor makes the calls of the assignment at whatever its
    storage held. *)
Lemma move_new_calls (self src : nat) (m : memory) (w : World E) :
  calls (move_new self src m w).2
  = calls w ++ (if stmt (m self) is Some _ then [call_finalize (stmt (m self))] else []).
Proof. apply move_assign_calls. Qed.

End Moves.

(** C9 at its failing input.  Move construction into storage whose [stmt]
    member is not null finalizes that value, which the new object never
    owned; when the value is the handle of the source, the new object adopts
    a handle that has just been finalized. *)
Lemma move_new_finalizes_what_the_storage_held :
  calls (PreparedStatement.move_new 1 0 (sample_memory (Some 7))
           (Scripted.world Scripted.quiet)).2
  = [call_finalize (Some 7)]
  ∧ calls (PreparedStatement.move_new 1 0 (sample_memory (Some 2))
             (Scripted.world Scripted.quiet)).2
    = [call_finalize (Some 2)]
  ∧ PreparedStatement.stmt
      ((PreparedStatement.move_new 1 0 (sample_memory (Some 2))
          (Scripted.world Scripted.quiet)).1 1)
    = Some 2
  ∧ calls (PreparedStatement.move_new 1 0 (sample_memory None)
             (Scripted.world Scripted.quiet)).2
    = [].
Proof. repeat split. Qed.

(** ** PreparedStatement: queries *)

Section Queries.
Context {E : Type} `{Engine E}.
Import PreparedStatement.

(** No [SQLite3Error] leaves [executeQuery]. *)
Lemma executeQuery_loop_throws_nothing (fuel : nat) (this : t) (rs : ResultSet.t)
    (w : World E) (e : exn) :
  (executeQuery_loop fuel this rs w).1 ≠ Throws e.
Proof.
  revert rs w. induction fuel as [| fuel IH]; intros rs w; simpl; [done |].
  destruct (sqlite3_step (stmt this) w) as [w' r].
  destruct (r =? SQLITE_ROW)%Z; [| done].
  destruct (read_columns _ _ _ _ _); [apply IH | done].
Qed.

(** A first step that yields no row ends the query with the empty result
    set, whatever status it is: SQLITE_DONE and an error look the same. *)
Lemma executeQuery_first_step_not_a_row (fuel : nat) (this : t) (w : World E) :
  (sqlite3_step (stmt this) w).2 ≠ SQLITE_ROW →
  executeQuery (S fuel) this w = (Returns ResultSet.new, (sqlite3_step (stmt this) w).1).
Proof.
  intros Hr. unfold executeQuery; simpl.
  destruct (sqlite3_step (stmt this) w) as [w' r]; simpl in *.
  by destruct (Z.eqb_spec r SQLITE_ROW).
Qed.

End Queries.

(** The row callback of [SQLite3::executeQuery] goes through the array
    overload of [addRecord], which stores a null value as the empty string. *)
Example addRecord_stores_a_null_value_as_empty :
  ResultSet.addRecord 1 (λ _, None) (λ _, "x") ResultSet.new
  = ResultSet.mk [ {[ "x" := EmptyString ]} ] 0.
Proof. reflexivity. Qed.

(** C10 at its failing input.  A row with an SQL NULL makes [executeQuery]
    build a [std::string] from a null pointer: no result set is returned.
    With a text in the column the row is returned, and a failing step ends
    the query like a finished one. *)
Lemma executeQuery_on_a_null_column :
  (PreparedStatement.executeQuery 3 sample_statement (Scripted.world one_null_row)).1
  = Undefined
  ∧ (PreparedStatement.executeQuery 3 sample_statement (Scripted.world one_text_row)).1
    = Returns (ResultSet.mk [ {[ "x" := "1" ]} ] 0)
  ∧ (PreparedStatement.executeQuery 3 sample_statement (Scripted.world step_fails)).1
    = Returns ResultSet.new.
Proof. repeat split. Qed.

(** ** PreparedStatement: a bind without values *)

Section BindWithoutValues.
Context {E : Type} `{Engine E}.
Import PreparedStatement.

(** With no placeholder and no value no binding is made, and the check
    reads the status that the earlier operation left in [rc]. *)
Lemma bind_without_values_reads_the_earlier_status (this : t) (w : World E) :
  paramCount this = 0%Z →
  bind [] this w
  = (if bool_decide (rc this ≠ SQLITE_OK)
     then Throws (SQLite3Error (sqlite3_errmsg (db this) w))
     else Returns tt, this, w).
Proof. intros Hn. by rewrite bind_right_count by (by rewrite Hn). Qed.

End BindWithoutValues.

(** After [execute] the status is SQLITE_DONE, and a [bind] without values
    throws. *)
Example bind_without_values_after_execute :
  let ps := PreparedStatement.mk (Some 1) (Some 2) SQLITE_OK 0 in
  let '(_, ps', w') := PreparedStatement.execute 2 ps (Scripted.world Scripted.quiet) in
  PreparedStatement.rc ps' = SQLITE_DONE
  ∧ (PreparedStatement.bind [] ps' w').1.1 = Throws (SQLite3Error "not an error").
Proof. split; reflexivity. Qed.

(** A question mark inside a quoted literal counts as a placeholder. *)
Example question_mark_in_a_literal_is_counted :
  count_char "?" "SELECT '?', a FROM t WHERE b = ?" = 2.
Proof. reflexivity. Qed.

(** * Further properties *)

(** ** ResultSet: the cursor *)

(** The cursor of a result set never passes the end. *)
Lemma reachable_cursor_in_range (rs : ResultSet.t) :
  reachable rs → ResultSet.iterator rs ≤ length (ResultSet.container rs).
Proof.
  induction 1 as [| record rs _ IH | count row cols rs _ IH | rs _ IH]; simpl.
  - lia.
  - lia.
  - unfold ResultSet.addRecord. destruct (count =? 0)%Z; simpl; lia.
  - unfold ResultSet.end_. case_bool_decide; lia.
Qed.

Lemma to_bool_true_iff_current (rs : ResultSet.t) :
  ResultSet.iterator rs ≤ length (ResultSet.container rs) →
  ResultSet.to_bool rs = true ↔ is_Some (ResultSet.current rs).
Proof.
  intros Hrange. unfold ResultSet.to_bool, ResultSet.current, ResultSet.end_.
  rewrite andb_true_iff, !bool_decide_eq_true, lookup_lt_is_Some. lia.
Qed.

(** X1.  On every result set that the public members can produce,
    [operator bool] is true exactly when the cursor is on a row, that is,
    exactly when [get] and its specializations have a row to read: a [get]
    behind a true [operator bool] returns or throws [ColumnNotFound], and a
    [get] behind a false one dereferences the end iterator. *)
Theorem operator_bool_guards_get {T : Type} `{StreamExtract T}
    (rs : ResultSet.t) (name : string) :
  reachable rs →
  (ResultSet.to_bool rs = true ↔ is_Some (ResultSet.current rs))
  ∧ (ResultSet.to_bool rs = true ↔ ResultSet.get (T:=T) rs name ≠ Undefined)
  ∧ (ResultSet.to_bool rs = true ↔ ResultSet.get_string rs name ≠ Undefined)
  ∧ (ResultSet.to_bool rs = true ↔ ResultSet.get_tm rs name ≠ Undefined).
Proof.
  intros Hreach. pose proof (reachable_cursor_in_range rs Hreach) as Hrange.
  pose proof (to_bool_true_iff_current rs Hrange) as Hbool.
  split; [done |]. rewrite Hbool.
  unfold ResultSet.get, ResultSet.get_string, ResultSet.get_tm.
  destruct (ResultSet.current rs) as [row |].
  - destruct (row !! name); repeat split; intros; eauto; discriminate.
  - repeat split; intros Hsome; try done; by destruct Hsome.
Qed.

Lemma operator_bool_guards_get_witness :
  ResultSet.to_bool (ResultSet.next sample_rows).1 = true
  ↔ ResultSet.get (T:=int) (ResultSet.next sample_rows).1 "id" ≠ Undefined.
Proof.
  apply (operator_bool_guards_get (T:=int) (ResultSet.next sample_rows).1 "id").
  apply reachable_next.
  apply (reachable_addRecord_move {[ "id" := "42" ]} ResultSet.new), reachable_new.
Defined.

Lemma next_n_container (k : nat) (rs : ResultSet.t) :
  ResultSet.container (next_n k rs) = ResultSet.container rs.
Proof. induction k as [| k IH]; simpl; [done | exact IH]. Qed.

Lemma next_n_iterator (k : nat) (rs : ResultSet.t) :
  ResultSet.iterator rs ≤ length (ResultSet.container rs) →
  ResultSet.iterator (next_n k rs)
  = Nat.min (ResultSet.iterator rs + k) (length (ResultSet.container rs)).
Proof.
  intros Hrange. induction k as [| k IH]; simpl; [lia |].
  unfold ResultSet.end_. rewrite next_n_container.
  fold (next_n k rs). rewrite IH. case_bool_decide; lia.
Qed.

(** X2.  [next()] moves the cursor by one row and stops at the end: after
    [k] calls the cursor is [k] rows further, or at the end when fewer rows
    were left; the rows are untouched; the flag that a call returns is what
    [operator bool] says afterwards; and once [operator bool] is false a call
    changes nothing and returns false. *)
Theorem next_advances_and_stops_at_the_end (rs : ResultSet.t) (k : nat) :
  reachable rs →
  ResultSet.iterator (next_n k rs)
  = Nat.min (ResultSet.iterator rs + k) (length (ResultSet.container rs))
  ∧ ResultSet.container (next_n k rs) = ResultSet.container rs
  ∧ (ResultSet.next rs).2 = ResultSet.to_bool (ResultSet.next rs).1
  ∧ (ResultSet.to_bool rs = false → ResultSet.next rs = (rs, false)).
Proof.
  intros Hreach. pose proof (reachable_cursor_in_range rs Hreach) as Hrange.
  split; [by apply next_n_iterator |]. split; [apply next_n_container |].
  destruct rs as [rows it]. simpl in Hrange.
  unfold ResultSet.next, ResultSet.to_bool, ResultSet.end_; simpl. split.
  - repeat case_bool_decide; simpl; try done; lia.
  - rewrite andb_false_iff, !bool_decide_eq_false. intros Hend.
    assert (it = length rows) as -> by lia.
    rewrite !bool_decide_eq_false_2 by (intros ?; done). done.
Qed.

Lemma next_advances_and_stops_at_the_end_witness :
  ResultSet.iterator (next_n 5 sample_rows) = 1
  ∧ ResultSet.next (next_n 5 sample_rows) = (next_n 5 sample_rows, false).
Proof.
  assert (reachable sample_rows) as Hsample
    by apply (reachable_addRecord_move {[ "id" := "42" ]} ResultSet.new), reachable_new.
  split.
  - by destruct (next_advances_and_stops_at_the_end sample_rows 5 Hsample) as [-> _].
  - assert (reachable (next_n 5 sample_rows)) as Hlater
      by (do 5 apply reachable_next; exact Hsample).
    by apply (next_advances_and_stops_at_the_end (next_n 5 sample_rows) 0 Hlater).
Defined.

Lemma traverse_drop (fuel : nat) (rs : ResultSet.t) :
  ResultSet.iterator rs ≤ length (ResultSet.container rs) →
  length (ResultSet.container rs) - ResultSet.iterator rs ≤ fuel →
  traverse fuel rs = drop (ResultSet.iterator rs) (ResultSet.container rs).
Proof.
  revert rs. induction fuel as [| fuel IH]; intros [rows it]; simpl; intros Hrange Hfuel.
  - rewrite drop_ge; [done | lia].
  - unfold ResultSet.to_bool, ResultSet.current, ResultSet.end_; simpl.
    destruct (decide (it = length rows)) as [-> | Hne].
    + rewrite (bool_decide_eq_false_2 (length rows ≠ length rows)) by (intros ?; done).
      rewrite andb_false_r, drop_ge; [done | lia].
    + rewrite !bool_decide_eq_true_2 by lia. simpl.
      destruct (lookup_lt_is_Some_2 rows it) as [row Hrow]; [lia |].
      rewrite Hrow. rewrite (drop_S rows row it Hrow). f_equal.
      rewrite IH; simpl; [done | lia | lia].
Qed.

(** X3.  The reading loop [while (rs) { ...; rs.next(); }] sees the rows
    from the cursor to the last one, each once and in the order of their
    addition; after an addition, which rewinds the cursor, it sees every
    row. *)
Theorem reading_loop_sees_the_rows_in_order (rs : ResultSet.t) (fuel : nat) :
  reachable rs →
  length (ResultSet.container rs) ≤ fuel →
  traverse fuel rs = drop (ResultSet.iterator rs) (ResultSet.container rs)
  ∧ (∀ record, traverse (S fuel) (ResultSet.addRecord_move record rs)
               = ResultSet.container rs ++ [record]).
Proof.
  intros Hreach Hfuel. pose proof (reachable_cursor_in_range rs Hreach) as Hrange.
  split; [apply traverse_drop; lia |].
  intros record. rewrite traverse_drop; simpl; [done | lia |].
  rewrite length_app; simpl; lia.
Qed.

Lemma reading_loop_sees_the_rows_in_order_witness :
  traverse 2 (foldl apply_addition ResultSet.new sample_additions)
  = [ {[ "id" := "1" ]}; {[ "id" := "2"; "name" := EmptyString ]} ].
Proof.
  assert (reachable (foldl apply_addition ResultSet.new sample_additions)) as Hreach.
  { simpl. apply reachable_addRecord, reachable_addRecord_move, reachable_new. }
  destruct (reading_loop_sees_the_rows_in_order _ 2 Hreach) as [-> _].
  - simpl. lia.
  - reflexivity.
Defined.

(** ** ResultSet: the array overload of addRecord *)

Lemma umap_insert_lookup (k v k' : string) (m : gmap string string) :
  umap_insert k v m !! k'
  = match m !! k' with
    | Some v' => Some v'
    | None => if bool_decide (k = k') then Some v else None
    end.
Proof.
  unfold umap_insert. destruct (m !! k) as [v0 |] eqn:Hk.
  - destruct (m !! k') as [v' |] eqn:Hk'; [done |].
    case_bool_decide; [congruence | done].
  - rewrite lookup_insert. case_decide as Heq.
    + subst k'. rewrite Hk. by rewrite bool_decide_eq_true_2.
    + rewrite bool_decide_eq_false_2 by done. by destruct (m !! k').
Qed.

(** A column of the row under construction keeps the value it has; a new
    one takes the value at the first index that carries its name. *)
Lemma fill_lookup (n i : nat) (row : nat → cstr) (cols : nat → string)
    (m : gmap string string) (k : string) :
  ResultSet.fill n i row cols m !! k
  = match m !! k with
    | Some v => Some v
    | None => (λ j, default EmptyString (row j)) <$> first_named n i cols k
    end.
Proof.
  revert i m. induction n as [| n IH]; intros i m; simpl.
  - by destruct (m !! k).
  - rewrite IH, umap_insert_lookup. destruct (m !! k); [done |].
    by case_bool_decide.
Qed.

Lemma first_named_first (n i j : nat) (cols : nat → string) :
  i ≤ j < i + n → (∀ j', i ≤ j' < j → cols j' ≠ cols j) →
  first_named n i cols (cols j) = Some j.
Proof.
  revert i. induction n as [| n IH]; intros i Hj Hfirst; simpl; [lia |].
  destruct (decide (i = j)) as [-> | Hne].
  - by rewrite bool_decide_eq_true_2.
  - rewrite bool_decide_eq_false_2 by (apply Hfirst; lia).
    apply IH; [lia |]. intros j' Hj'. apply Hfirst. lia.
Qed.

Lemma first_named_none (n i : nat) (cols : nat → string) (k : string) :
  (∀ j, i ≤ j < i + n → cols j ≠ k) → first_named n i cols k = None.
Proof.
  revert i. induction n as [| n IH]; intros i Hnone; simpl; [done |].
  rewrite bool_decide_eq_false_2 by (apply Hnone; lia).
  apply IH. intros j Hj. apply Hnone. lia.
Qed.

(** X4.  What the array overload of [addRecord] stores reads back: after
    [addRecord(count, row, cols)] with [0 < count] on a fresh result set,
    [get<std::string>] of the name at index [j] returns the first line of the
    value at [j], the empty string for a null value, provided no earlier
    index carries the same name (the first of two columns of one name wins);
    and a name that no index carries is not found. *)
Theorem addRecord_arrays_read_back (count : Z) (row : nat → cstr)
    (cols : nat → string) :
  (0 < count)%Z →
  (∀ j, j < Z.to_nat count → (∀ j', j' < j → cols j' ≠ cols j) →
        ResultSet.get_string (ResultSet.addRecord count row cols ResultSet.new) (cols j)
        = Returns (getline (default EmptyString (row j))))
  ∧ (∀ j j', j' < j < Z.to_nat count → cols j' = cols j →
        (∀ j'', j'' < j' → cols j'' ≠ cols j) →
        ResultSet.get_string (ResultSet.addRecord count row cols ResultSet.new) (cols j)
        = Returns (getline (default EmptyString (row j'))))
  ∧ (∀ name, (∀ j, j < Z.to_nat count → cols j ≠ name) →
        ResultSet.get_string (ResultSet.addRecord count row cols ResultSet.new) name
        = Throws (ColumnNotFound name)).
Proof.
  intros Hcount.
  assert (∀ name, ResultSet.get_string (ResultSet.addRecord count row cols ResultSet.new) name
                  = match first_named (Z.to_nat count) 0 cols name with
                    | Some j => Returns (getline (default EmptyString (row j)))
                    | None => Throws (ColumnNotFound name)
                    end) as Hget.
  { intros name. unfold ResultSet.addRecord.
    destruct (Z.eqb_spec count 0) as [-> | _]; [lia |].
    unfold ResultSet.get_string, ResultSet.current; simpl.
    rewrite fill_lookup, lookup_empty.
    by destruct (first_named (Z.to_nat count) 0 cols name). }
  split; [| split].
  - intros j Hj Hfirst. rewrite Hget, first_named_first; [done | lia |].
    intros j' Hj'. apply Hfirst. lia.
  - intros j j' Hj Hsame Hfirst. rewrite Hget, <- Hsame, first_named_first; [done | lia |].
    intros j'' Hj''. rewrite Hsame. apply Hfirst. lia.
  - intros name Hnone. rewrite Hget, first_named_none; [done |].
    intros j Hj. apply Hnone. lia.
Qed.

Lemma addRecord_arrays_read_back_witness :
  ResultSet.get_string
    (ResultSet.addRecord 2 (λ i, if i is O then Some "2" else None)
       (λ i, if i is O then "id" else "name") ResultSet.new) "name"
  = Returns EmptyString.
Proof.
  assert (0 < 2)%Z as Hcount by lia.
  destruct (addRecord_arrays_read_back 2 (λ i, if i is O then Some "2" else None)
              (λ i, if i is O then "id" else "name") Hcount) as (Hread & _ & _).
  apply (Hread 1).
  - simpl. lia.
  - intros j' Hj'. assert (j' = 0) as -> by lia. discriminate.
Defined.

(** ** SQLite3: raw queries *)

(** ** SQLite3: raw queries *)

Section RawQueries.
Context {E : Type} `{EngineRows E}.

(** The callback adds one row for each call that comes with columns, in
    the order of the calls, and the first such call rewinds the cursor. *)
Lemma collect_rows (invs : list invocation) (rs : ResultSet.t) :
  ResultSet.container (Connection.collect invs rs)
  = ResultSet.container rs ++ (row_of <$> filter delivers_columns invs)
  ∧ ResultSet.iterator (Connection.collect invs rs)
    = if bool_decide (filter delivers_columns invs = []) then ResultSet.iterator rs else 0.
Proof.
  revert rs. induction invs as [| i invs IH]; intros rs.
  - simpl. by rewrite app_nil_r.
  - unfold Connection.collect in *. cbn [foldl]. destruct (IH
      (ResultSet.addRecord (inv_count i) (inv_row i) (inv_cols i) rs)) as [-> ->].
    unfold ResultSet.addRecord. destruct (Z.eqb_spec (inv_count i) 0) as [Hzero | Hsome].
    + by rewrite filter_cons_False by (unfold delivers_columns; lia).
    + rewrite filter_cons_True by done. simpl. rewrite <- app_assoc. split; [done |].
      by case_bool_decide.
Qed.

(** X5.  [executeQuery(sql)] with a null [sql] throws the error of the
    missing parameter and makes no call.  Otherwise it calls the engine once;
    when the engine reports success it returns a result set with one row for
    each call of the callback that came with columns, in order, the cursor on
    the first of them; when the engine reports another status and leaves a
    message, it throws that message and no result set comes back. *)
Theorem executeQuery_collects_the_rows_of_the_callback (this : SQLite3.t) (w : World E) :
  Connection.executeQuery None this w = (Throws (SQLite3Error SQLite3.NO_SQL), this, w)
  ∧ ∀ text e r msg invs,
      engine_exec_callback (engine w) (SQLite3.db this) text (SQLite3.errMsg this)
      = (e, r, msg, invs) →
      (Connection.executeQuery (Some text) this w).2
      = mk_world e (calls w ++ [call_exec (SQLite3.db this) text])
      ∧ (r = SQLITE_OK →
           (Connection.executeQuery (Some text) this w).1.1
           = Returns (ResultSet.mk (row_of <$> filter delivers_columns invs) 0))
      ∧ (r ≠ SQLITE_OK → ∀ message, msg = Some message →
           (Connection.executeQuery (Some text) this w).1.1
           = Throws (SQLite3Error message)).
Proof.
  split; [done |]. intros text e r msg invs Hexec.
  unfold Connection.executeQuery, sqlite3_exec_callback. rewrite Hexec.
  destruct (decide (r = SQLITE_OK)) as [-> | Hr].
  - simpl. repeat split; [| done]. intros _. f_equal.
    destruct (collect_rows invs ResultSet.new) as [Hrows Hit].
    destruct (Connection.collect invs ResultSet.new) as [rows it]. simpl in *.
    subst. f_equal. by case_bool_decide.
  - rewrite bool_decide_eq_true_2 by done. simpl. repeat split; [done |].
    by intros _ message ->.
Qed.

(** X6.  The message of an error that [execute], [executeQuery],
    [beginTransaction] or [endTransaction] throws for a statement is the one
    that [error()] returns afterwards. *)
Theorem error_returns_the_message_thrown (this : SQLite3.t) (w : World E) (e : exn) :
  (∀ text, (SQLite3.execute (Some text) this w).1.1 = Throws e →
           e = SQLite3Error (Connection.error (SQLite3.execute (Some text) this w).1.2))
  ∧ (∀ text, (Connection.executeQuery (Some text) this w).1.1 = Throws e →
             e = SQLite3Error
                   (Connection.error (Connection.executeQuery (Some text) this w).1.2))
  ∧ ((Connection.beginTransaction this w).1.1 = Throws e →
       e = SQLite3Error (Connection.error (Connection.beginTransaction this w).1.2))
  ∧ ((Connection.endTransaction this w).1.1 = Throws e →
       e = SQLite3Error (Connection.error (Connection.endTransaction this w).1.2)).
Proof.
  assert (∀ text, (Connection.run_literal text this w).1.1 = Throws e →
            e = SQLite3Error (Connection.error (Connection.run_literal text this w).1.2))
    as Hliteral.
  { intros text. unfold Connection.run_literal.
    destruct (sqlite3_exec _ text _ w) as [[w' r] msg].
    case_bool_decide; simpl; [| done]. destruct msg; simpl; [| done]. by intros [= <-]. }
  repeat split.
  - intros text. unfold SQLite3.execute.
    destruct (sqlite3_exec _ text _ w) as [[w' r] msg].
    case_bool_decide; simpl; [| done]. destruct msg; simpl; [| done]. by intros [= <-].
  - intros text. unfold Connection.executeQuery.
    destruct (sqlite3_exec_callback _ text _ w) as [[[w' r] msg] invs].
    case_bool_decide; simpl; [| done]. destruct msg; simpl; [| done]. by intros [= <-].
  - apply Hliteral.
  - apply Hliteral.
Qed.

End RawQueries.

(** ** SQLite3: construction without a script *)

Section Construction.
Context {E : Type} `{EngineRows E}.

(** X7.  Construction without a creation script makes the one call that
    opens the file and returns exactly when that call reports success; the
    object it returns holds the handle of the engine, [isPrepared()] is true,
    [error()] is the text NULL, and [lastId()] asks the engine. *)
Theorem new_without_script_returns_an_opened_connection (dbPath : cstr) (w : World E) :
  (SQLite3.new dbPath None w).2
  = mk_world (engine_open (engine w) dbPath).1.1 (calls w ++ [call_open dbPath])
  ∧ (returns_normally (SQLite3.new dbPath None w).1
     ↔ (engine_open (engine w) dbPath).1.2 = SQLITE_OK)
  ∧ ∀ this, (SQLite3.new dbPath None w).1 = Returns this →
      SQLite3.db this = (engine_open (engine w) dbPath).2
      ∧ Connection.isPrepared this = true
      ∧ Connection.error this = "NULL"
      ∧ ∀ w', Connection.lastId this w'
              = engine_last_insert_rowid (engine w') (SQLite3.db this).
Proof.
  unfold SQLite3.new, sqlite3_open.
  destruct (engine_open (engine w) dbPath) as [[e r] d]; simpl.
  destruct (decide (r = SQLITE_OK)) as [-> | Hr].
  - simpl. split; [done |]. split; [split; [done | by eexists] |].
    intros this [= <-]. repeat split.
  - rewrite bool_decide_eq_true_2 by done. simpl.
    split; [done |]. split; [split; [by intros [this ?] | done] | done].
Qed.

End Construction.

(** ** TransactionGuard *)

Section Guard.
Context {E : Type} `{EngineRows E}.

Lemma run_literal_world (text : string) (db : SQLite3.t) (w : World E) :
  calls (Connection.run_literal text db w).2
  = calls w ++ [call_exec (SQLite3.db db) text]
  ∧ SQLite3.db (Connection.run_literal text db w).1.2 = SQLite3.db db.
Proof.
  unfold Connection.run_literal, sqlite3_exec.
  destruct (engine_exec (engine w) (SQLite3.db db) text (SQLite3.errMsg db))
    as [[e r] msg].
  by case_bool_decide.
Qed.

Lemma guard_destroy_world (db : SQLite3.t) (w : World E) :
  (TransactionGuard.destroy db w).2 = (Connection.endTransaction db w).2
  ∧ (TransactionGuard.destroy db w).1.2 = (Connection.endTransaction db w).1.2
  ∧ ∀ e, (TransactionGuard.destroy db w).1.1 ≠ Throws e.
Proof.
  unfold TransactionGuard.destroy.
  destruct (Connection.endTransaction db w) as [[o db'] w'].
  by destruct o.
Qed.

(** X8.  The destructor of a guard runs END TRANSACTION once and lets no
    exception out.  A guarded block whose BEGIN TRANSACTION fails runs
    neither the body nor the end of the transaction.  A guarded block whose
    begin succeeds runs END TRANSACTION once, after the body, whether the
    body returns or throws, and then ends as the body did unless the end of
    the transaction fails without a message. *)
Theorem guard_ends_the_transaction_once {A : Type}
    (body : SQLite3.t → World E → outcome A * SQLite3.t * World E)
    (db : SQLite3.t) (w : World E) :
  (calls (TransactionGuard.destroy db w).2
   = calls w ++ [call_exec (SQLite3.db db) Connection.END_TRANSACTION]
   ∧ ∀ e, (TransactionGuard.destroy db w).1.1 ≠ Throws e)
  ∧ (¬ returns_normally (TransactionGuard.new db w).1.1 →
       (TransactionGuard.scoped body db w).2 = (TransactionGuard.new db w).2
       ∧ (∀ e, (TransactionGuard.new db w).1.1 = Throws e →
               (TransactionGuard.scoped body db w).1.1 = Throws e)
       ∧ ¬ returns_normally (TransactionGuard.scoped body db w).1.1
       ∧ calls (TransactionGuard.scoped body db w).2
         = calls w ++ [call_exec (SQLite3.db db) Connection.BEGIN_TRANSACTION])
  ∧ (∀ db1 w1 o db2 w2,
       TransactionGuard.new db w = (Returns tt, db1, w1) →
       body db1 w1 = (o, db2, w2) →
       o ≠ Undefined → o ≠ OutOfFuel →
       calls w1 = calls w ++ [call_exec (SQLite3.db db) Connection.BEGIN_TRANSACTION]
       ∧ calls (TransactionGuard.scoped body db w).2
         = calls w2 ++ [call_exec (SQLite3.db db2) Connection.END_TRANSACTION]
       ∧ ((TransactionGuard.scoped body db w).1.1 = o
          ∨ (TransactionGuard.scoped body db w).1.1 = Undefined
            ∧ (Connection.endTransaction db2 w2).1.1 = Undefined)).
Proof.
  split; [| split].
  - destruct (guard_destroy_world db w) as (-> & _ & Hcatch).
    split; [| done]. apply run_literal_world.
  - intros Hfail. unfold TransactionGuard.scoped.
    pose proof (proj1 (run_literal_world Connection.BEGIN_TRANSACTION db w)) as Hcalls.
    fold (Connection.beginTransaction db w) in Hcalls.
    fold (TransactionGuard.new db w) in Hcalls.
    destruct (TransactionGuard.new db w) as [[o db1] w1]. simpl in *.
    destruct o as [[] | e | |]; simpl.
    + exfalso. apply Hfail. by eexists.
    + repeat split; [by intros ? [= <-] | by intros [? ?] | done].
    + repeat split; [done | by intros [? ?] | done].
    + repeat split; [done | by intros [? ?] | done].
  - intros db1 w1 o db2 w2 Hnew Hbody Hdefined Hfuel.
    pose proof (proj1 (run_literal_world Connection.BEGIN_TRANSACTION db w)) as Hbegin.
    fold (Connection.beginTransaction db w) in Hbegin.
    fold (TransactionGuard.new db w) in Hbegin. rewrite Hnew in Hbegin. simpl in Hbegin.
    split; [done |].
    destruct (guard_destroy_world db2 w2) as (Hworld & _ & Hcatch).
    pose proof (proj1 (run_literal_world Connection.END_TRANSACTION db2 w2)) as Hend.
    fold (Connection.endTransaction db2 w2) in Hend. rewrite <- Hworld in Hend.
    unfold TransactionGuard.scoped. rewrite Hnew, Hbody.
    assert ((TransactionGuard.destroy db2 w2).1.1 = Undefined →
            (Connection.endTransaction db2 w2).1.1 = Undefined) as Hundefined.
    { unfold TransactionGuard.destroy.
      destruct (Connection.endTransaction db2 w2) as [[o' db'] w']. by destruct o'. }
    assert ((TransactionGuard.destroy db2 w2).1.1 ≠ OutOfFuel) as Hnofuel.
    { unfold TransactionGuard.destroy, Connection.endTransaction, Connection.run_literal.
      destruct (sqlite3_exec _ _ _ w2) as [[w' r] msg].
      case_bool_decide; [| done]. by destruct msg. }
    destruct (TransactionGuard.destroy db2 w2) as [[o3 db3] w3]. simpl in *.
    destruct o as [a | e | |]; try done.
    + destruct o3 as [[] | e3 | |]; simpl; try done.
      * by split; [| left].
      * by destruct (Hcatch e3).
      * split; [done |]. right. split; [done | by apply Hundefined].
    + destruct o3 as [[] | e3 | |]; simpl; try done.
      * by split; [| left].
      * by destruct (Hcatch e3).
      * split; [done |]. right. split; [done | by apply Hundefined].
Qed.

End Guard.

(** ** SQLite3: dates as text *)

Lemma pretty_four_digits (Y : Z) :
  (1000 ≤ Y ≤ 9999)%Z → pretty Y = four_digits Y EmptyString.
Proof.
  intros HY.
  assert (four_digit_years_print = true) as Hall by (vm_compute; reflexivity).
  unfold four_digit_years_print in Hall. rewrite forallb_forall in Hall.
  apply String.eqb_eq, Hall, list_elem_of_In, elem_of_seqZ. lia.
Qed.

Lemma four_digits_append (Y : Z) (rest : string) :
  four_digits Y EmptyString +:+ rest = four_digits Y rest.
Proof. reflexivity. Qed.

(** X9.  For a date with a year from 1000 to 9999, [toString] gives the
    text YYYY-MM-DD and [toStringM] the text YYYY-MM, month and day on two
    digits; and a date and time that [get<std::tm>] has read from a text
    YYYY-MM-DD HH:MM:SS prints back with [toString] as the date of that
    text. *)
Theorem toString_prints_the_date (Y M D : Z) :
  (1000 ≤ Y ≤ 9999)%Z → (1 ≤ M ≤ 12)%Z → (1 ≤ D ≤ 31)%Z →
  (∀ t, year t = Y → month t = M → tm_mday t = D →
        Connection.toString t = date_text Y M D
        ∧ Connection.toStringM t = month_text Y M)
  ∧ (∀ h mi s, (0 ≤ h ≤ 23)%Z → (0 ≤ mi ≤ 59)%Z → (0 ≤ s ≤ 60)%Z →
       Connection.toString
         (get_time "%Y-%m-%d %H:%M:%S" (datetime_text Y M D h mi s) tm_zero)
       = date_text Y M D).
Proof.
  intros HY HM HD.
  assert (∀ t, year t = Y → month t = M → tm_mday t = D →
            Connection.toString t = date_text Y M D
            ∧ Connection.toStringM t = month_text Y M) as Hprint.
  { intros t Hyear Hmonth Hday. unfold year, month in *.
    unfold Connection.toString, Connection.toStringM, date_text, month_text.
    change (put_time t "%Y-%m-%d")
      with (pretty (tm_year t + 1900)%Z
              +:+ String "-" (two_digits (tm_mon t + 1)
                                (String "-" (two_digits (tm_mday t) EmptyString)))).
    change (put_time t "%Y-%m")
      with (pretty (tm_year t + 1900)%Z
              +:+ String "-" (two_digits (tm_mon t + 1) EmptyString)).
    rewrite Hyear, Hmonth, Hday, pretty_four_digits by done.
    by rewrite !four_digits_append. }
  split; [exact Hprint |].
  intros h mi s Hh Hmi Hs. rewrite get_time_datetime_text by lia.
  apply Hprint; unfold year, month; simpl; lia.
Qed.

Lemma toString_prints_the_date_witness :
  Connection.toString (mk_tm 0 0 0 7 2 124) = "2024-03-07"
  ∧ Connection.toStringM (mk_tm 0 0 0 7 2 124) = "2024-03".
Proof.
  assert (1000 ≤ 2024 ≤ 9999)%Z as HY by lia.
  assert (1 ≤ 3 ≤ 12)%Z as HM by lia.
  assert (1 ≤ 7 ≤ 31)%Z as HD by lia.
  destruct (toString_prints_the_date 2024 3 7 HY HM HD) as [Hprint _].
  apply (Hprint (mk_tm 0 0 0 7 2 124)); reflexivity.
Defined.

(** ** PreparedStatement: construction *)

Section StatementConstruction.
Context {E : Type} `{Engine E}.
Import PreparedStatement.

(** X10.  The constructor prepares the query first.  When the engine
    refuses it, the constructor throws the message of the engine and binds
    nothing.  When no value is given, the count of question marks is not
    checked and the statement is returned unbound.  When values are given and
    their number is not that of the question marks, the constructor throws
    the count error after the query was prepared, and the statement just
    prepared is not finalized.  Otherwise the values are bound at positions 1
    onwards. *)
Theorem new_prepares_then_binds (db0 : ptr) (query : string) (args : list param)
    (w : World E) :
  ∀ w1 r st,
    sqlite3_prepare_v3 db0 query (to_int (Z.of_nat (String.length query))) w
    = (w1, r, st) →
    calls w1
    = calls w ++ [call_prepare db0 query (to_int (Z.of_nat (String.length query)))]
    ∧ (r ≠ SQLITE_OK →
         new db0 query args w = (Throws (SQLite3Error (sqlite3_errmsg db0 w1)), w1))
    ∧ (r = SQLITE_OK → args = [] →
         new db0 query args w
         = (Returns (mk db0 st SQLITE_OK (to_int (Z.of_nat (count_char "?" query)))), w1))
    ∧ (r = SQLITE_OK → args ≠ [] →
         Z.of_nat (length args)
         ≠ to_size_t (to_int (Z.of_nat (count_char "?" query))) →
         new db0 query args w = (Throws (SQLite3Error COUNT_MISMATCH), w1))
    ∧ (r = SQLITE_OK → args ≠ [] →
         Z.of_nat (length args)
         = to_size_t (to_int (Z.of_nat (count_char "?" query))) →
         calls (new db0 query args w).2
         = calls w1 ++ imap (λ i a, call_bind st (1 + Z.of_nat i) (binding_of a)) args).
Proof.
  intros w1 r st Hprepare.
  assert (calls w1
          = calls w ++ [call_prepare db0 query (to_int (Z.of_nat (String.length query)))])
    as Hcalls.
  { unfold sqlite3_prepare_v3 in Hprepare.
    destruct (engine_prepare _ _ _ _) as [[e r'] st']. by injection Hprepare as <- _ _. }
  split; [done |]. unfold new. rewrite Hprepare.
  split; [| split; [| split]].
  - intros Hr. by rewrite bool_decide_eq_true_2.
  - intros -> ->. by rewrite bool_decide_eq_false_2 by (by intros ?).
  - intros -> Hargs Hcount. rewrite bool_decide_eq_false_2 by (by intros ?).
    rewrite bool_decide_eq_true_2 by (destruct args; [done | simpl; lia]).
    by rewrite bind_wrong_count.
  - intros -> Hargs Hcount. rewrite bool_decide_eq_false_2 by (by intros ?).
    rewrite bool_decide_eq_true_2 by (destruct args; [done | simpl; lia]).
    rewrite bind_right_count by done.
    pose proof (expand_calls args 0
                  {| db := db0; stmt := st; rc := SQLITE_OK;
                     paramCount := to_int (Z.of_nat (count_char "?" query)) |} w1)
      as Hexpand.
    simpl in Hexpand. by case_bool_decide.
Qed.

End StatementConstruction.

(** ** PreparedStatement: stepping *)

Section SteppingFacts.
Context {E : Type} `{Engine E}.
Import PreparedStatement.

Lemma after_steps_S (k : nat) (st : ptr) (w : World E) :
  after_steps (S k) st w = (sqlite3_step st (after_steps k st w)).1.
Proof.
  revert w. induction k as [| k IH]; intros w; [done |].
  change (after_steps (S (S k)) st w) with (after_steps (S k) st (sqlite3_step st w).1).
  by rewrite IH.
Qed.

Lemma after_steps_calls (k : nat) (st : ptr) (w : World E) :
  calls (after_steps k st w) = calls w ++ replicate k (call_step st).
Proof.
  revert w. induction k as [| k IH]; intros w; simpl.
  - by rewrite app_nil_r.
  - rewrite IH. unfold sqlite3_step. destruct (engine_step (engine w) st). simpl.
    by rewrite <- app_assoc.
Qed.

Lemma execute_loop_rows_then_stop (k fuel : nat) (this : t) (w : World E) :
  (∀ j, j < k → step_status j (stmt this) w = SQLITE_ROW) →
  step_status k (stmt this) w ≠ SQLITE_ROW →
  k < fuel →
  execute_loop fuel this w
  = Some (with_rc this (step_status k (stmt this) w), after_steps (S k) (stmt this) w).
Proof.
  revert fuel this w. induction k as [| k IH]; intros fuel this w Hrows Hstop Hfuel.
  - destruct fuel as [| fuel]; [lia |]. simpl.
    unfold step_status in Hstop. simpl in Hstop. unfold step_status. simpl.
    destruct (sqlite3_step (stmt this) w) as [w' r]. simpl in *.
    by destruct (Z.eqb_spec r SQLITE_ROW).
  - destruct fuel as [| fuel]; [lia |]. simpl.
    pose proof (Hrows 0 ltac:(lia)) as Hfirst. unfold step_status in Hfirst.
    simpl in Hfirst.
    destruct (sqlite3_step (stmt this) w) as [w' r] eqn:Hstep. simpl in Hfirst. subst r.
    simpl.
    rewrite (IH fuel (with_rc this SQLITE_ROW) w').
    + unfold step_status. simpl. by rewrite Hstep.
    + intros j Hj. specialize (Hrows (S j) ltac:(lia)).
      unfold step_status in *. simpl in *. by rewrite Hstep in Hrows.
    + unfold step_status in *. simpl in *. by rewrite Hstep in Hstop.
    + lia.
Qed.

(** X11.  When the engine gives [k] rows and then a status [r] that is not
    SQLITE_ROW, [execute()] makes [k + 1] steps and no other call that changes
    the engine, leaves [r] in [rc], returns when [r] is SQLITE_DONE and
    throws the message of the engine otherwise: the rows are dropped. *)
Theorem execute_steps_to_the_first_status_that_is_no_row
    (k fuel : nat) (this : t) (w : World E) :
  (∀ j, j < k → step_status j (stmt this) w = SQLITE_ROW) →
  step_status k (stmt this) w ≠ SQLITE_ROW →
  k < fuel →
  execute fuel this w
  = (if bool_decide (step_status k (stmt this) w ≠ SQLITE_DONE)
     then Throws (SQLite3Error
                    (sqlite3_errmsg (db this) (after_steps (S k) (stmt this) w)))
     else Returns tt,
     with_rc this (step_status k (stmt this) w),
     after_steps (S k) (stmt this) w)
  ∧ calls (execute fuel this w).2 = calls w ++ replicate (S k) (call_step (stmt this)).
Proof.
  intros Hrows Hstop Hfuel.
  assert (execute fuel this w
          = (if bool_decide (step_status k (stmt this) w ≠ SQLITE_DONE)
             then Throws (SQLite3Error
                            (sqlite3_errmsg (db this) (after_steps (S k) (stmt this) w)))
             else Returns tt,
             with_rc this (step_status k (stmt this) w),
             after_steps (S k) (stmt this) w)) as Hexecute.
  { unfold execute. rewrite (execute_loop_rows_then_stop k) by done. simpl.
    by case_bool_decide. }
  split; [done |]. rewrite Hexecute. simpl. apply (after_steps_calls (S k)).
Qed.

Lemma executeQuery_loop_rows_then_stop (k fuel : nat) (this : t) (rs : ResultSet.t)
    (w : World E) (rows : list (gmap string string)) :
  (∀ j, j < k → step_status j (stmt this) w = SQLITE_ROW) →
  step_status k (stmt this) w ≠ SQLITE_ROW →
  rows_read k (stmt this) w = Some rows →
  k < fuel →
  executeQuery_loop fuel this rs w
  = (Returns (ResultSet.mk (ResultSet.container rs ++ rows)
                (if rows is [] then ResultSet.iterator rs else 0)),
     after_steps (S k) (stmt this) w).
Proof.
  revert fuel rs w rows.
  induction k as [| k IH]; intros fuel rs w rows Hrows Hstop Hread Hfuel.
  - destruct fuel as [| fuel]; [lia |]. simpl in *. injection Hread as <-.
    unfold step_status in Hstop. simpl in Hstop.
    destruct (sqlite3_step (stmt this) w) as [w' r]. simpl in *.
    destruct (Z.eqb_spec r SQLITE_ROW); [done |].
    rewrite app_nil_r. by destruct rs.
  - destruct fuel as [| fuel]; [lia |]. simpl in *.
    pose proof (Hrows 0 ltac:(lia)) as Hfirst. unfold step_status in Hfirst.
    simpl in Hfirst.
    destruct (sqlite3_step (stmt this) w) as [w' r] eqn:Hstep. simpl in *. subst r.
    simpl.
    destruct (read_columns _ 0 (stmt this) w' ∅) as [record |]; [| done]. simpl in Hread.
    destruct (rows_read k (stmt this) w') as [rest |] eqn:Hrest; [| done].
    injection Hread as <-.
    rewrite (IH fuel _ w' rest); [| | | done | lia].
    + simpl. rewrite <- app_assoc. simpl. by destruct rest.
    + intros j Hj. specialize (Hrows (S j) ltac:(lia)).
      unfold step_status in *. simpl in *. by rewrite Hstep in Hrows.
    + unfold step_status in *. simpl in *. by rewrite Hstep in Hstop.
Qed.

Lemma rows_read_length (k : nat) (st : ptr) (w : World E)
    (rows : list (gmap string string)) :
  rows_read k st w = Some rows → length rows = k.
Proof.
  revert w rows. induction k as [| k IH]; intros w rows; simpl.
  - by intros [= <-].
  - destruct (read_columns _ 0 st _ ∅); [| done]. simpl.
    destruct (rows_read k st _) as [rest |] eqn:Hrest; [| done].
    intros [= <-]. simpl. f_equal. by eapply IH.
Qed.

(** X12.  When the engine gives [k] rows, none with an SQL NULL, and then
    a status that is not SQLITE_ROW, [executeQuery()] makes [k + 1] steps and
    returns the [k] rows in the order of the steps, the cursor on the first;
    the status that ended the loop is not looked at, and [rc] keeps its
    value. *)
Theorem executeQuery_returns_the_rows_stepped
    (k fuel : nat) (this : t) (w : World E) (rows : list (gmap string string)) :
  (∀ j, j < k → step_status j (stmt this) w = SQLITE_ROW) →
  step_status k (stmt this) w ≠ SQLITE_ROW →
  rows_read k (stmt this) w = Some rows →
  k < fuel →
  executeQuery fuel this w
  = (Returns (ResultSet.mk rows 0), after_steps (S k) (stmt this) w)
  ∧ ResultSet.count (ResultSet.mk rows 0) = k
  ∧ calls (executeQuery fuel this w).2
    = calls w ++ replicate (S k) (call_step (stmt this)).
Proof.
  intros Hrows Hstop Hread Hfuel.
  assert (executeQuery fuel this w
          = (Returns (ResultSet.mk rows 0), after_steps (S k) (stmt this) w)) as Hquery.
  { unfold executeQuery.
    rewrite (executeQuery_loop_rows_then_stop k fuel this ResultSet.new w rows) by done.
    simpl. by destruct rows. }
  split; [done |]. split; [by apply rows_read_length in Hread |].
  rewrite Hquery. simpl. apply (after_steps_calls (S k)).
Qed.

End SteppingFacts.

Lemma new_prepares_then_binds_witness :
  PreparedStatement.new (Some 1) sample_query [PreparedStatement.integral 7]
    (Scripted.world Scripted.quiet)
  = (Throws (SQLite3Error PreparedStatement.COUNT_MISMATCH),
     mk_world Scripted.quiet [call_prepare (Some 1) sample_query 32]).
Proof.
  edestruct (new_prepares_then_binds (Some 1) sample_query
               [PreparedStatement.integral 7] (Scripted.world Scripted.quiet))
    as (_ & _ & _ & Hwrong & _); [reflexivity |].
  apply Hwrong; [reflexivity | discriminate | vm_compute; discriminate].
Defined.

Lemma execute_steps_to_the_first_status_that_is_no_row_witness :
  (PreparedStatement.execute 5 sample_statement (Scripted.world two_text_rows)).1.1
  = Returns tt
  ∧ calls (PreparedStatement.execute 5 sample_statement (Scripted.world two_text_rows)).2
    = [call_step (Some 2); call_step (Some 2); call_step (Some 2)].
Proof.
  assert (∀ j, j < 2 →
            step_status j (PreparedStatement.stmt sample_statement)
              (Scripted.world two_text_rows) = SQLITE_ROW) as Hrows.
  { intros j Hj. destruct j as [| [| j]]; [reflexivity | reflexivity | lia]. }
  assert (step_status 2 (PreparedStatement.stmt sample_statement)
            (Scripted.world two_text_rows) ≠ SQLITE_ROW) as Hstop by (vm_compute; discriminate).
  assert (2 < 5) as Hfuel by lia.
  destruct (execute_steps_to_the_first_status_that_is_no_row 2 5 sample_statement
              (Scripted.world two_text_rows) Hrows Hstop Hfuel) as [-> ->].
  split; reflexivity.
Defined.

Lemma executeQuery_returns_the_rows_stepped_witness :
  (PreparedStatement.executeQuery 5 sample_statement (Scripted.world two_text_rows)).1
  = Returns (ResultSet.mk [ {[ "x" := "1" ]}; {[ "x" := "1" ]} ] 0).
Proof.
  assert (∀ j, j < 2 →
            step_status j (PreparedStatement.stmt sample_statement)
              (Scripted.world two_text_rows) = SQLITE_ROW) as Hrows.
  { intros j Hj. destruct j as [| [| j]]; [reflexivity | reflexivity | lia]. }
  assert (step_status 2 (PreparedStatement.stmt sample_statement)
            (Scripted.world two_text_rows) ≠ SQLITE_ROW) as Hstop by (vm_compute; discriminate).
  assert (2 < 5) as Hfuel by lia.
  destruct (executeQuery_returns_the_rows_stepped 2 5 sample_statement
              (Scripted.world two_text_rows)
              [ {[ "x" := "1" ]}; {[ "x" := "1" ]} ] Hrows Hstop eq_refl Hfuel)
    as [-> _].
  reflexivity.
Defined.

(** ** PreparedStatement: what the members keep *)

Section Kept.
Context {E : Type} `{Engine E}.
Import PreparedStatement.

Lemma execute_loop_same_statement (fuel : nat) (this this' : t) (w w' : World E) :
  execute_loop fuel this w = Some (this', w') → same_statement this this'.
Proof.
  revert this w. induction fuel as [| fuel IH]; intros this w; simpl; [done |].
  destruct (sqlite3_step (stmt this) w) as [w1 r].
  destruct (r =? SQLITE_ROW)%Z.
  - intros Hloop. by apply IH in Hloop.
  - by intros [= <- <-].
Qed.

(** X13.  [bind], [reset] and [execute] change nothing of a statement but
    [rc]: the handles and the count of placeholders are those of the
    construction, whether the member returns or throws.  So the number of
    values that [bind] accepts is the same before and after any of them. *)
Theorem members_keep_the_handles_and_the_count
    (args : list param) (fuel : nat) (this : t) (w : World E) :
  same_statement this (bind args this w).1.2
  ∧ same_statement this (reset this w).1
  ∧ same_statement this (execute fuel this w).1.2
  ∧ ∀ this', same_statement this this' →
      ∀ args' w',
        (Z.of_nat (length args') ≠ to_size_t (paramCount this) →
           bind args' this' w' = (Throws (SQLite3Error COUNT_MISMATCH), this', w'))
        ∧ (Z.of_nat (length args') = to_size_t (paramCount this) →
             calls (bind args' this' w').2
             = calls w' ++ imap (λ i a, call_bind (stmt this) (1 + Z.of_nat i) (binding_of a))
                             args').
Proof.
  split; [| split; [| split]].
  - unfold bind. case_bool_decide; [done |].
    pose proof (expand_keeps_handles args 0 this w) as (Hdb & Hstmt & Hn).
    destruct (expand args 0 this w) as [this' w']. simpl in *.
    by case_bool_decide.
  - unfold reset.
    destruct (sqlite3_clear_bindings (stmt this) w) as [w1 r1].
    by destruct (sqlite3_reset (stmt this) w1) as [w2 r2].
  - unfold execute. destruct (execute_loop fuel this w) as [[this' w'] |] eqn:Hloop.
    + apply execute_loop_same_statement in Hloop. by case_bool_decide.
    + done.
  - intros this' (_ & Hstmt & Hn) args' w'. rewrite Hn, Hstmt. split.
    + apply bind_wrong_count.
    + intros Hcount. rewrite bind_right_count by done. simpl. by rewrite expand_calls.
Qed.

End Kept.

(** ** PreparedStatement: moves and destruction *)

Section Ownership.
Context {E : Type} `{Engine E}.
Import PreparedStatement.

Lemma destroy_calls (this : t) (w : World E) :
  calls (destroy this w).2 = calls w ++ finalized (stmt this).
Proof.
  unfold destroy, finalized, sqlite3_finalize.
  destruct (stmt this); simpl; [| by rewrite app_nil_r].
  by destruct (engine_finalize (engine w) _).
Qed.

Lemma move_assign_elsewhere (self src a : nat) (m : memory) (w : World E) :
  a ≠ self → a ≠ src → (move_assign self src m w).1 a = m a.
Proof.
  intros Hself Hsrc. unfold move_assign. cbv zeta. cbn [fst].
  by rewrite !store_other by done.
Qed.

(** X14.  A move assignment between two statements, followed by the
    destruction of both, finalizes the handle that the destination held and
    the handle that the source held, each once when it is not null, and in
    that order: the destination takes the members of the source, the source
    is left with null handles, its destructor makes no call, and no other
    object is touched. *)
Theorem move_assign_then_destroy_finalizes_each_handle_once
    (self src : nat) (m : memory) (w : World E) :
  self ≠ src →
  (move_assign self src m w).1 self
  = mk (db (m src)) (stmt (m src)) (rc (m src)) (paramCount (m src))
  ∧ db ((move_assign self src m w).1 src) = None
  ∧ stmt ((move_assign self src m w).1 src) = None
  ∧ (∀ a, a ≠ self → a ≠ src → (move_assign self src m w).1 a = m a)
  ∧ calls (move_assign self src m w).2 = calls w ++ finalized (stmt (m self))
  ∧ calls (destroy ((move_assign self src m w).1 self)
             (destroy ((move_assign self src m w).1 src)
                (move_assign self src m w).2).2).2
    = calls w ++ finalized (stmt (m self)) ++ finalized (stmt (m src)).
Proof.
  intros Hne.
  pose proof (move_assign_adopts self src m w Hne) as Hself.
  destruct (move_assign_source_released self src m w) as (Hdb & Hstmt & Hquiet).
  split; [done |]. split; [done |]. split; [done |].
  split; [intros a; apply move_assign_elsewhere |].
  split; [apply move_assign_calls |].
  rewrite Hquiet. cbn [snd]. rewrite destroy_calls, Hself, move_assign_calls. simpl.
  by rewrite <- app_assoc.
Qed.

(** X15.  A statement that is move-assigned to itself has its handle
    finalized and is left with null handles: the statement is lost, its
    status and its count of placeholders stay, and its destructor makes no
    further call. *)
Theorem move_assign_to_itself_releases_the_statement
    (self : nat) (m : memory) (w : World E) :
  (move_assign self self m w).1 self
  = mk None None (rc (m self)) (paramCount (m self))
  ∧ calls (move_assign self self m w).2 = calls w ++ finalized (stmt (m self))
  ∧ ∀ w', destroy ((move_assign self self m w).1 self) w'
          = ((move_assign self self m w).1 self, w').
Proof.
  split; [| split].
  - unfold move_assign. cbv zeta. cbn [fst]. by rewrite !store_same.
  - apply move_assign_calls.
  - apply move_assign_source_released.
Qed.

(** X16.  An argument of an integral type other than [sqlite_int64] is bound
    through [sqlite3_bind_int], so as an [int]: a value in the range of [int]
    is bound as it is, a value outside of it is bound as another value; a
    [bool] is bound as the integer 0 or 1 and a [char] as a text of one
    byte. *)
Theorem integral_arguments_are_bound_as_int (v : Z) (index : Z) (this : t) (w : World E) :
  calls (prepareParam (integral v) index this w).2
  = calls w ++ [call_bind (stmt this) index (bind_int (to_int v))]
  ∧ (INT_MIN ≤ to_int v ≤ INT_MAX)%Z
  ∧ (to_int v = v ↔ (INT_MIN ≤ v ≤ INT_MAX)%Z)
  ∧ (∀ b : bool, calls (prepareParam (boolean b) index this w).2
                 = calls w ++ [call_bind (stmt this) index (bind_int (if b then 1 else 0))])
  ∧ (∀ c, calls (prepareParam (character c) index this w).2
          = calls w ++ [call_bind (stmt this) index (bind_text (String c EmptyString) 1)]).
Proof.
  assert (INT_MIN ≤ to_int v ≤ INT_MAX)%Z as Hrange.
  { unfold to_int, INT_MIN, INT_MAX. pose proof (Z.mod_pos_bound (v + 2 ^ 31) (2 ^ 32)). lia. }
  split; [by rewrite prepareParam_unfold |]. split; [done |]. split; [| split].
  - split; [intros <-; done |]. unfold to_int, INT_MIN, INT_MAX. intros Hv.
    rewrite Z.mod_small; lia.
  - intros b. rewrite prepareParam_unfold. by destruct b.
  - intros c. by rewrite prepareParam_unfold.
Qed.

End Ownership.

Lemma move_assign_then_destroy_finalizes_each_handle_once_witness :
  calls (PreparedStatement.destroy
           ((PreparedStatement.move_assign 1 0 (sample_memory (Some 7)) (Scripted.world Scripted.quiet)).1 1)
           (PreparedStatement.destroy
              ((PreparedStatement.move_assign 1 0 (sample_memory (Some 7)) (Scripted.world Scripted.quiet)).1 0)
              (PreparedStatement.move_assign 1 0 (sample_memory (Some 7)) (Scripted.world Scripted.quiet)).2).2).2
  = [call_finalize (Some 7); call_finalize (Some 2)].
Proof.
  assert (1 ≠ 0) as Hne by lia.
  by destruct (move_assign_then_destroy_finalizes_each_handle_once (E:=Scripted.t)
                 1 0 (sample_memory (Some 7)) (Scripted.world Scripted.quiet) Hne)
    as (_ & _ & _ & _ & _ & ->).
Defined.

(** ** A raw query and its reader *)

Section QueryAndReader.
Context {E : Type} `{EngineRows E}.

(** X17.  When the engine reports success, the result set that
    [executeQuery(sql)] returns, read with the loop
    [while (rs) { ...; rs.next(); }], gives the rows of the calls of the
    callback that came with columns, each once and in order; [count()] is
    their number, and [operator bool] is true at the start exactly when there
    is one. *)
Theorem executeQuery_then_reading_loop (text : string) (this : SQLite3.t)
    (w : World E) (e : E) (msg : cstr) (invs : list invocation) :
  engine_exec_callback (engine w) (SQLite3.db this) text (SQLite3.errMsg this)
  = (e, SQLITE_OK, msg, invs) →
  ∃ rs, (Connection.executeQuery (Some text) this w).1.1 = Returns rs
        ∧ ResultSet.count rs = length (filter delivers_columns invs)
        ∧ (ResultSet.to_bool rs = true ↔ filter delivers_columns invs ≠ [])
        ∧ ∀ fuel, length (filter delivers_columns invs) ≤ fuel →
            traverse fuel rs = row_of <$> filter delivers_columns invs.
Proof.
  intros Hexec. exists (ResultSet.mk (row_of <$> filter delivers_columns invs) 0).
  split.
  - unfold Connection.executeQuery, sqlite3_exec_callback. rewrite Hexec. simpl.
    f_equal. destruct (collect_rows invs ResultSet.new) as [Hrows Hit].
    destruct (Connection.collect invs ResultSet.new) as [rows it]. simpl in *.
    subst. f_equal. by case_bool_decide.
  - unfold ResultSet.count. simpl. rewrite length_fmap. split; [done |]. split.
    + unfold ResultSet.to_bool, ResultSet.end_. simpl. rewrite length_fmap.
      destruct (filter delivers_columns invs) as [| i rest]; simpl; [done |].
      split; intros; done.
    + intros fuel Hfuel. rewrite traverse_drop; simpl; rewrite ?length_fmap; [done | lia | lia].
Qed.

End QueryAndReader.

Lemma executeQuery_then_reading_loop_witness :
  ∃ rs, (Connection.executeQuery (Some "SELECT id, name FROM t")
           sample_connection (ScriptedRows.world with_sample_rows)).1.1 = Returns rs
        ∧ traverse 2 rs
          = [ {[ "id" := "1"; "name" := EmptyString ]}; {[ "id" := "2" ]} ].
Proof.
  assert (engine_exec_callback (engine (ScriptedRows.world with_sample_rows))
            (SQLite3.db sample_connection) "SELECT id, name FROM t"
            (SQLite3.errMsg sample_connection)
          = (with_sample_rows, SQLITE_OK, None, sample_invocations)) as Hexec
    by reflexivity.
  destruct (executeQuery_then_reading_loop "SELECT id, name FROM t" sample_connection
              (ScriptedRows.world with_sample_rows) with_sample_rows None
              sample_invocations Hexec) as (rs & Hrs & _ & _ & Hloop).
  exists rs. split; [exact Hrs |]. rewrite Hloop; [reflexivity | simpl; lia].
Defined.

(** The end of the transaction fails with a message: the block still ends
    as its body did. *)
Example guarded_block_swallows_the_failure_of_the_end :
  TransactionGuard.scoped (λ db w, (Returns 5, db, w)) sample_connection
    (ScriptedRows.world end_fails)
  = (Returns 5,
     SQLite3.mk (Some 1) (Some "cannot commit - no transaction is active") 1 true,
     mk_world
       (ScriptedRows.mk
          (Scripted.mk (SQLITE_OK, Some 1) [] (SQLITE_OK, Some 2) [] [] [] "cannot commit")
          [] 0)
       [call_exec (Some 1) Connection.BEGIN_TRANSACTION;
        call_exec (Some 1) Connection.END_TRANSACTION]).
Proof. reflexivity. Qed.
